(** * JSON value model, tokenizer, parser and writer of mforms' jsonview.cpp

    A shallow embedding of the [JsonParser] namespace of
    library/forms/jsonview.cpp: [JsonValue], [JsonObject], [JsonArray],
    [JsonReader] (tokenizer [scan] and the recursive-descent [parse*]
    functions) and [JsonWriter].

    Modelling conventions.
    - A C++ [std::string] is a Rocq [string]; a [char] is an [ascii].
    - An exception escaping a function is an explicit result constructor.
      Functions that mutate a caller's [JsonValue] in place return the
      value as it stands when they return or when the exception leaves
      them, so the state a caller observes after a [ParserException] is
      part of the model.
    - A [double] payload is written as a decimal number
      [dmant * 10 ^ dexp]; every binary64 double is such a number.
      Reading a number text rounds it to the nearest binary64 double
      ([dbl_round]), as [strtod] does, and [is_binary64] tells the
      decimals that are doubles.
    - [int64_t] and [uint64_t] payloads are mathematical integers; the
      range limits of these types are not modelled.  [static_cast<int>]
      of a double is modelled with [int]'s range ([dbl_trunc]). *)

From Stdlib Require Import Bool ZArith NArith List Lia.
From Stdlib Require Import Strings.Ascii Strings.String.
Import ListNotations.

Set Warnings "-register-all".

Open Scope list_scope.
Open Scope string_scope.

(** ** Characters *)

Definition ch_dq : ascii := "034"%char.      (* double quote *)
Definition ch_bs : ascii := "092"%char.      (* backslash *)
Definition ch_nl : ascii := "010"%char.      (* '\n' *)
Definition ch_tab : ascii := "009"%char.     (* '\t' *)
Definition ch_cr : ascii := "013"%char.      (* '\r' *)
Definition ch_bsp : ascii := "008"%char.     (* '\b' *)
Definition ch_ff : ascii := "012"%char.      (* '\f' *)
Definition ch_vt : ascii := "011"%char.      (* '\v' *)
Definition ch_nul : ascii := "000"%char.     (* '\0' *)

Definition str1 (c : ascii) : string := String c EmptyString.

(** ** Numbers: the [double] payload and decimal texts *)

(** A [double] value, written as the decimal [dmant * 10 ^ dexp]. *)
Record Dbl := mkDbl { dmant : Z; dexp : Z }.

Definition dbl_zero : Dbl := mkDbl 0 0.
Definition dbl_of_Z (z : Z) : Dbl := mkDbl z 0.

(** Numeric equality of two decimals, compared at the smaller exponent. *)
Definition dbl_eqv (a b : Dbl) : Prop :=
  let e := Z.min (dexp a) (dexp b) in
  (dmant a * 10 ^ (dexp a - e) = dmant b * 10 ^ (dexp b - e))%Z.

(** The same comparison as a test. *)
Definition dbl_eqb (a b : Dbl) : bool :=
  let e := Z.min (dexp a) (dexp b) in
  (dmant a * 10 ^ (dexp a - e) =? dmant b * 10 ^ (dexp b - e))%Z.

(** The range of [int]. *)
Definition INT_MIN : Z := (- 2 ^ 31)%Z.
Definition INT_MAX : Z := (2 ^ 31 - 1)%Z.

(** The value truncated toward zero. *)
Definition dbl_trunc_Z (d : Dbl) : Z :=
  if (0 <=? dexp d)%Z then (dmant d * 10 ^ dexp d)%Z
  else Z.quot (dmant d) (10 ^ (- dexp d)).

(** [static_cast<int>(double)]: the truncation toward zero when it lies in
    [int]'s range.  Outside that range C++ leaves the conversion undefined;
    the value given there, [INT_MIN], is what the x86-64 instruction
    [cvttsd2si] emitted for the conversion yields. *)
Definition dbl_trunc (d : Dbl) : Z :=
  let t := dbl_trunc_Z d in
  if (INT_MIN <=? t)%Z && (t <=? INT_MAX)%Z then t else INT_MIN.

(** [modf(number, &intpart) == 0.0]: the fractional part is zero. *)
Definition dbl_frac_is_zero (d : Dbl) : bool :=
  (0 <=? dexp d)%Z || (Z.rem (dmant d) (10 ^ (- dexp d)) =? 0)%Z.

(** Rounding to IEEE 754 binary64. *)

(** [DBL_MAX], the largest finite [double]: [(2^53 - 1) * 2^971]. *)
Definition dbl_max : Z := ((2 ^ 53 - 1) * 2 ^ 971)%Z.

(** [floor (log2 (a / D))] for positive [a] and [D]. *)
Definition bin_exp (a D : Z) : Z :=
  let e := (Z.log2 a - Z.log2 D)%Z in
  if (0 <=? e)%Z then (if (a <? D * 2 ^ e)%Z then (e - 1)%Z else e)
  else (if (a * 2 ^ (- e) <? D)%Z then (e - 1)%Z else e).

(** [a / (D * 2^E)] rounded to the nearest integer, ties to even. *)
Definition round_div (a D E : Z) : Z :=
  let '(num, den) := if (0 <=? E)%Z then (a, (D * 2 ^ E)%Z) else ((a * 2 ^ (- E))%Z, D) in
  let m := (num / den)%Z in
  let r := (num mod den)%Z in
  if (den <? 2 * r)%Z || ((2 * r =? den)%Z && Z.odd m) then (m + 1)%Z else m.

(** The [double] nearest to the decimal [d], ties to even, as glibc's
    [strtod] computes it: [M * 2^E] with [E] the exponent of [d]'s binade
    less 52, and at least [-1074] (subnormals, down to [0]).  A value
    that rounds to infinity gives [DBL_MAX] of the same sign, as
    libstdc++'s [__convert_to_v] stores it (with [failbit]).  The result
    is returned as a decimal: [M * 2^E = (M * 5^-E) * 10^E] for [E < 0]. *)
Definition dbl_round (d : Dbl) : Dbl :=
  let '(n, k) := if (0 <=? dexp d)%Z then ((dmant d * 10 ^ dexp d)%Z, 0%Z)
                 else (dmant d, (- dexp d)%Z) in
  let a := Z.abs n in
  let D := (10 ^ k)%Z in
  if (a =? 0)%Z then dbl_zero else
  let E := Z.max (bin_exp a D - 52) (-1074) in
  let M := round_div a D E in
  let sg := if (n <? 0)%Z then (-1)%Z else 1%Z in
  if (0 <=? E)%Z then mkDbl (sg * Z.min (M * 2 ^ E) dbl_max) 0
  else mkDbl (sg * (M * 5 ^ (- E))) E.

(** The decimal is a [double]: rounding keeps its value. *)
Definition is_binary64 (d : Dbl) : bool := dbl_eqb (dbl_round d) d.

(** The [double] a decimal literal stands for: the literal itself when it
    is a [double], the rounded value otherwise. *)
Definition to_double (d : Dbl) : Dbl := if is_binary64 d then d else dbl_round d.

(** Decimal digits. *)
Definition digit_char (n : N) : ascii := ascii_of_N (48 + n).

Definition is_digit (c : ascii) : bool :=
  (48 <=? N_of_ascii c)%N && (N_of_ascii c <=? 57)%N.

Definition digit_val (c : ascii) : N := (N_of_ascii c - 48)%N.

(** The last [k] decimal digits of [n], most significant first. *)
Fixpoint fixed_digits (k : nat) (n : N) : string :=
  match k with
  | O => EmptyString
  | S k' => fixed_digits k' (n / 10) ++ str1 (digit_char (n mod 10))
  end.

Fixpoint ndigits_aux (fuel : nat) (n : N) : nat :=
  match fuel with
  | O => 1
  | S f => if (n <? 10)%N then 1 else S (ndigits_aux f (n / 10))
  end.

(** Number of decimal digits of [n] ([1] for [0]). *)
Definition ndigits (n : N) : nat := ndigits_aux (S (N.to_nat n)) n.

Definition digits_of_N (n : N) : string := fixed_digits (ndigits n) n.

(** Value of a string of decimal digits. *)
Fixpoint digits_value_acc (acc : N) (s : string) : N :=
  match s with
  | EmptyString => acc
  | String c s' => digits_value_acc (acc * 10 + digit_val c)%N s'
  end.

Definition digits_value (s : string) : N := digits_value_acc 0 s.

Definition Z_sign_text (neg : bool) : string := if neg then "-" else "".

(** Modelled from the spec: [base::to_string] on the integral types
    (library/base, not part of this source tree), "the value's natural
    decimal text representation": optional minus sign, then the decimal
    digits without leading zeros. *)
Definition to_string_Z (z : Z) : string :=
  Z_sign_text (z <? 0)%Z ++ digits_of_N (Z.abs_N z).

(** Modelled from the spec: [base::to_string] on [double] (library/base,
    not part of this source tree), "the value's natural decimal text
    representation": positional notation, with a fractional part written
    out to the decimal's exponent when it is negative. *)
Definition to_string_double (d : Dbl) : string :=
  if (0 <=? dexp d)%Z then to_string_Z (dmant d * 10 ^ dexp d)
  else
    let k := Z.to_nat (- dexp d) in
    let a := Z.abs_N (dmant d) in
    Z_sign_text (dmant d <? 0)%Z
      ++ digits_of_N (a / 10 ^ N.of_nat k)
      ++ "." ++ fixed_digits k (a mod 10 ^ N.of_nat k).

(** Longest prefix of decimal digits. *)
Fixpoint span_digits (s : string) : string * string :=
  match s with
  | String c s' =>
      if is_digit c then let '(d, r) := span_digits s' in (String c d, r)
      else (EmptyString, s)
  | EmptyString => (EmptyString, EmptyString)
  end.

Definition read_sign (s : string) : bool * string :=
  match s with
  | String c s' =>
      if Ascii.eqb c "-" then (true, s')
      else if Ascii.eqb c "+" then (false, s') else (false, s)
  | EmptyString => (false, s)
  end.

(** The sign and digits after an [e]/[E]; [None] when there is no digit. *)
Definition read_exponent (s : string) : option Z :=
  let '(neg, s1) := read_sign s in
  let '(d, _) := span_digits s1 in
  match d with
  | EmptyString => None
  | _ => let v := Z.of_N (digits_value d) in Some (if neg then (- v)%Z else v)
  end.

(** [buffer << text; buffer >> number] (libstdc++'s [num_get] for
    [double], in the "C" locale): [_M_extract_float] collects the longest
    prefix made of a sign, digits, a point and digits, then an [e]/[E]
    (only after a digit) with a sign and digits; [__convert_to_v] passes
    it to [strtod] and stores [0] when [strtod] does not consume all of it,
    which happens when it has no digit at all or an [e] without exponent
    digits.  Otherwise the result is the literal rounded to a [double]. *)
Definition parse_double_text (s : string) : Dbl :=
  let '(neg, s1) := read_sign s in
  let '(d1, s2) := span_digits s1 in
  let '(d2, s3) :=
    match s2 with
    | String c r => if Ascii.eqb c "." then span_digits r else (EmptyString, s2)
    | EmptyString => (EmptyString, EmptyString)
    end in
  match d1, d2 with
  | EmptyString, EmptyString => dbl_zero
  | _, _ =>
      let m := Z.of_N (digits_value (d1 ++ d2)) in
      let literal (ex : Z) :=
        to_double (mkDbl (if neg then (- m)%Z else m) (ex - Z.of_nat (String.length d2))) in
      match s3 with
      | String c r =>
          if Ascii.eqb c "e" || Ascii.eqb c "E" then
            match read_exponent r with
            | Some ex => literal ex
            | None => dbl_zero
            end
          else literal 0%Z
      | EmptyString => literal 0%Z
      end
  end.

(** ** The value model: [JsonValue], [JsonObject], [JsonArray] *)

Inductive DataType :=
  VEmpty | VBoolean | VInt | VInt64 | VUint64 | VDouble | VString | VObject | VArray.

Definition DataType_eqb (a b : DataType) : bool :=
  match a, b with
  | VEmpty, VEmpty | VBoolean, VBoolean | VInt, VInt | VInt64, VInt64
  | VUint64, VUint64 | VDouble, VDouble | VString, VString
  | VObject, VObject | VArray, VArray => true
  | _, _ => false
  end.

(** All payload fields are present at once, as in the C++ class; the
    [JsonObject] member is the key/value list of its [std::map] (kept
    sorted by key, see [obj_insert]) and the [JsonArray] member is the
    element list of its [std::vector]. *)
Inductive JsonValue := mkJsonValue {
  _double : Dbl;
  _integer64 : Z;
  _uint64 : Z;
  _bool : bool;
  _string : string;
  _object : list (string * JsonValue);
  _array : list JsonValue;
  _type : DataType }.

Definition JsonObject := list (string * JsonValue).
Definition JsonArray := list JsonValue.

(** [JsonValue::JsonValue()]. *)
Definition JsonValue_default : JsonValue :=
  mkJsonValue dbl_zero 0 0 false EmptyString [] [] VEmpty.

(** Typed constructors, lines 635-839.  The [std::string] constructor
    leaves [_integer64] and [_uint64] uninitialised; they are [0] here. *)
Definition JsonValue_of_string (val : string) : JsonValue :=
  mkJsonValue dbl_zero 0 0 false val [] [] VString.

Definition JsonValue_of_bool (val : bool) : JsonValue :=
  mkJsonValue dbl_zero 0 0 val EmptyString [] [] VBoolean.

(** [JsonValue(int val) : _double(0), ..., _type(VInt)]: [val] is not stored. *)
Definition JsonValue_of_int (val : Z) : JsonValue :=
  mkJsonValue dbl_zero 0 0 false EmptyString [] [] VInt.

Definition JsonValue_of_int64 (val : Z) : JsonValue :=
  mkJsonValue dbl_zero val 0 false EmptyString [] [] VInt64.

Definition JsonValue_of_uint64 (val : Z) : JsonValue :=
  mkJsonValue dbl_zero 0 val false EmptyString [] [] VUint64.

Definition JsonValue_of_double (val : Dbl) : JsonValue :=
  mkJsonValue val 0 0 false EmptyString [] [] VDouble.

Definition JsonValue_of_object (val : JsonObject) : JsonValue :=
  mkJsonValue dbl_zero 0 0 false EmptyString val [] VObject.

Definition JsonValue_of_array (val : JsonArray) : JsonValue :=
  mkJsonValue dbl_zero 0 0 false EmptyString [] val VArray.

(** Typed getters, lines 846-1060: each returns its field, whatever the tag. *)
Definition getType (v : JsonValue) : DataType := _type v.
Definition getDouble (v : JsonValue) : Dbl := _double v.
Definition getInt (v : JsonValue) : Z := dbl_trunc (_double v).
Definition getInt64 (v : JsonValue) : Z := _integer64 v.
Definition getUint64 (v : JsonValue) : Z := _uint64 v.
Definition getBool (v : JsonValue) : bool := _bool v.
Definition getString (v : JsonValue) : string := _string v.
Definition getObject (v : JsonValue) : JsonObject := _object v.
Definition getArray (v : JsonValue) : JsonArray := _array v.

(** Setters. *)
Definition setNumber (val : Dbl) (v : JsonValue) : JsonValue :=
  let '(mkJsonValue _ i u b s o a t) := v in mkJsonValue val i u b s o a t.
Definition setBool (val : bool) (v : JsonValue) : JsonValue :=
  let '(mkJsonValue d i u _ s o a t) := v in mkJsonValue d i u val s o a t.
Definition setString (val : string) (v : JsonValue) : JsonValue :=
  let '(mkJsonValue d i u b _ o a t) := v in mkJsonValue d i u b val o a t.
Definition setObject (val : JsonObject) (v : JsonValue) : JsonValue :=
  let '(mkJsonValue d i u b s _ a t) := v in mkJsonValue d i u b s val a t.
Definition setArray (val : JsonArray) (v : JsonValue) : JsonValue :=
  let '(mkJsonValue d i u b s o _ t) := v in mkJsonValue d i u b s o val t.
Definition setType (ty : DataType) (v : JsonValue) : JsonValue :=
  let '(mkJsonValue d i u b s o a _) := v in mkJsonValue d i u b s o a ty.

(** Exceptions thrown by the value model. *)
Inductive Exn :=
  | BadCast                      (* std::bad_cast *)
  | OutOfRange (msg : string)    (* std::out_of_range *).

Inductive Result (A : Type) :=
  | Ok (a : A)
  | Throw (e : Exn).
Arguments Ok {A} a.
Arguments Throw {A} e.

(** Conversion operators, lines 702-801: [bad_cast] unless the tag matches. *)
Definition checked {A} (ty : DataType) (get : JsonValue -> A) (v : JsonValue)
  : Result A :=
  if negb (DataType_eqb (getType v) ty) then Throw BadCast else Ok (get v).

Definition operator_JsonObject := checked VObject getObject.
Definition operator_JsonArray := checked VArray getArray.
Definition operator_int := checked VInt getInt.
Definition operator_double := checked VDouble getDouble.
Definition operator_int64 := checked VInt64 getInt64.
Definition operator_uint64 := checked VUint64 getUint64.
Definition operator_bool := checked VBoolean getBool.
Definition operator_string := checked VString getString.

(** The message of libstdc++'s [vector::_M_range_check]. *)
Definition range_check_msg (n size : nat) : string :=
  "vector::_M_range_check: __n (which is " ++ digits_of_N (N.of_nat n)
  ++ ") >= this->size() (which is " ++ digits_of_N (N.of_nat size) ++ ")".

(** [std::vector::at]: throws [std::out_of_range] when [pos >= size()]. *)
Definition vector_at {A} (l : list A) (pos : nat) : Result A :=
  match nth_error l pos with
  | Some x => Ok x
  | None => Throw (OutOfRange (range_check_msg pos (List.length l)))
  end.

(** [JsonArray::at], lines 352-357. *)
Definition JsonArray_at (a : JsonArray) (pos : nat) : Result JsonValue :=
  if Nat.ltb (List.length a) pos then
    Throw (OutOfRange ("Index '" ++ digits_of_N (N.of_nat pos) ++ "' is out of range."))
  else vector_at a pos.

(** [JsonArray::pushBack], lines 580-583: [std::vector::push_back]. *)
Definition JsonArray_pushBack (a : JsonArray) (value : JsonValue) : JsonArray := app a [value].

(** [JsonArray::insert(pos, value)], lines 568-571: [std::vector::insert] before the
    iterator [pos], written as an index ([pos <= size()] for a valid
    iterator); the result is the array and the iterator to the inserted
    element. *)
Definition JsonArray_insert (a : JsonArray) (pos : nat) (value : JsonValue) : JsonArray * nat :=
  (app (firstn pos a) (value :: skipn pos a), pos).

(** [JsonArray::erase(pos)], lines 537-541: [std::vector::erase] at the iterator [pos],
    written as an index ([pos < size()] for a dereferenceable iterator);
    the result is the array and the iterator following the erased element. *)
Definition JsonArray_erase (a : JsonArray) (pos : nat) : JsonArray * nat :=
  (app (firstn pos a) (skipn (S pos) a), pos).

(** ** Tokens *)

Inductive JsonTokenType :=
  | JsonTokenObjectStart | JsonTokenObjectEnd | JsonTokenArrayStart
  | JsonTokenArrayEnd | JsonTokenNext | JsonTokenAssign | JsonTokenString
  | JsonTokenNumber | JsonTokenBoolean | JsonTokenEmpty.

Definition JsonTokenType_eqb (a b : JsonTokenType) : bool :=
  match a, b with
  | JsonTokenObjectStart, JsonTokenObjectStart | JsonTokenObjectEnd, JsonTokenObjectEnd
  | JsonTokenArrayStart, JsonTokenArrayStart | JsonTokenArrayEnd, JsonTokenArrayEnd
  | JsonTokenNext, JsonTokenNext | JsonTokenAssign, JsonTokenAssign
  | JsonTokenString, JsonTokenString | JsonTokenNumber, JsonTokenNumber
  | JsonTokenBoolean, JsonTokenBoolean | JsonTokenEmpty, JsonTokenEmpty => true
  | _, _ => false
  end.

Record JsonToken := mkJsonToken { getTokenType : JsonTokenType; getValue : string }.

(** ** The tokenizer: [JsonReader::scan] and its helpers

    The reader's cursor [_actualPos] over [_jsonText] is represented by the
    unread suffix of the text: [peek] is its head ([0] at the end), [eos]
    is its emptiness and [moveAhead] drops one character. *)

(** Outcome of a scanning helper: the text read and the unread suffix, or
    a [ParserException] with its message. *)
Inductive Scan (A : Type) :=
  | SOk (a : A) (rest : string)
  | SThrow (msg : string).
Arguments SOk {A} a rest.
Arguments SThrow {A} msg.

Definition peek (s : string) : ascii :=
  match s with String c _ => c | EmptyString => ch_nul end.

Definition eos (s : string) : bool :=
  match s with EmptyString => true | _ => false end.

(** [JsonReader::isWhiteSpace]. *)
Definition isWhiteSpace (c : ascii) : bool :=
  Ascii.eqb c " " || Ascii.eqb c ch_tab || Ascii.eqb c ch_nl || Ascii.eqb c ch_cr.

(** C [isspace] (the "C" locale). *)
Definition c_isspace (c : ascii) : bool :=
  isWhiteSpace c || Ascii.eqb c ch_vt || Ascii.eqb c ch_ff.

(** [JsonReader::eatWhitespace]. *)
Fixpoint eatWhitespace (s : string) : string :=
  match s with
  | String c s' => if isWhiteSpace c then eatWhitespace s' else s
  | EmptyString => EmptyString
  end.

(** [JsonReader::match]: characters are consumed while they agree. *)
Fixpoint match_loop (text s : string) : bool * string :=
  match text with
  | EmptyString => (true, s)
  | String t text' =>
      match s with
      | String c s' => if Ascii.eqb t c then match_loop text' s' else (false, s)
      | EmptyString => (false, s)
      end
  end.

Definition match_text (text s : string) : bool * string :=
  let '(m, r) := match_loop text s in
  (negb (String.eqb text EmptyString) && m, r).

(** The escape characters of [getJsonString]. *)
Definition unescape (c : ascii) : option ascii :=
  if Ascii.eqb c "/" || Ascii.eqb c ch_dq || Ascii.eqb c ch_bs then Some c
  else if Ascii.eqb c "b" then Some ch_bsp
  else if Ascii.eqb c "f" then Some ch_ff
  else if Ascii.eqb c "n" then Some ch_nl
  else if Ascii.eqb c "r" then Some ch_cr
  else if Ascii.eqb c "t" then Some ch_tab
  else None.

(** The [while] loop of [getJsonString], accumulating the payload. *)
Fixpoint getJsonString_loop (s : string) (acc : string) : Scan string :=
  match s with
  | String c s' =>
      if Ascii.eqb c ch_dq then
        (* loop exit; the closing quote is then consumed by [match] *)
        SOk acc s'
      else if Ascii.eqb c ch_bs then
        match s' with
        | String e s'' =>
            match unescape e with
            | Some u => getJsonString_loop s'' (acc ++ str1 u)
            | None => SThrow ("Unrecognized escape sequence: " ++ str1 ch_bs ++ str1 e)
            end
        | EmptyString => getJsonString_loop s' (acc ++ str1 c)
        end
      else getJsonString_loop s' (acc ++ str1 c)
  | EmptyString =>
      (* loop exit at the end of the text: [match] of the quote fails *)
      SThrow ("Expected: " ++ str1 ch_dq ++ " ")
  end.

(** [JsonReader::getJsonString]: skips the opening quote. *)
Definition getJsonString (s : string) : Scan string :=
  match s with
  | String _ s' => getJsonString_loop s' EmptyString
  | EmptyString => getJsonString_loop EmptyString EmptyString
  end.

(** [JsonReader::checkJsonEmpty]. *)
Fixpoint checkJsonEmpty_loop (n : nat) (s acc : string) : string * string :=
  match n, s with
  | S n', String c s' =>
      if c_isspace c then (acc, s) else checkJsonEmpty_loop n' s' (acc ++ str1 c)
  | _, _ => (acc, s)
  end.

Definition checkJsonEmpty (text s : string) : Scan unit :=
  let '(emptyString, rest) := checkJsonEmpty_loop (String.length text) s EmptyString in
  if String.eqb emptyString text then SOk tt rest
  else SThrow ("Unexpected token: " ++ emptyString).

(** At most [n] characters. *)
Fixpoint take_chars (n : nat) (s : string) : string * string :=
  match n, s with
  | S n', String c s' => let '(t, r) := take_chars n' s' in (String c t, r)
  | _, _ => (EmptyString, s)
  end.

(** [JsonReader::getJsonBoolean]: 5 characters after an [f], else 4; the
    check [boolString == "true" && boolString == "false"] of the source. *)
Definition getJsonBoolean (s : string) : Scan string :=
  let size := if Ascii.eqb (peek s) "f" then 5 else 4 in
  let '(boolString, rest) := take_chars size s in
  if String.eqb boolString "true" && String.eqb boolString "false" then
    SThrow ("Unexpected token: " ++ boolString)
  else SOk boolString rest.

Definition is_numeric_char (c : ascii) : bool :=
  is_digit c || Ascii.eqb c "." || Ascii.eqb c "e" || Ascii.eqb c "E"
  || Ascii.eqb c "-" || Ascii.eqb c "+".

(** [JsonReader::getJsonNumber]: the longest run of numeric characters. *)
Fixpoint getJsonNumber (s : string) : string * string :=
  match s with
  | String c s' =>
      if is_numeric_char c then let '(n, r) := getJsonNumber s' in (String c n, r)
      else (EmptyString, s)
  | EmptyString => (EmptyString, EmptyString)
  end.

(** One token after the whitespace: the [switch] of [JsonReader::scan].
    [None] stands for the [case 0] branch reached at a NUL character that
    is not the end of the text, where [scan] loops forever: it pushes an
    empty token without moving ahead. *)
Definition scan_token (s : string) : option (Scan JsonToken) :=
  match s with
  | EmptyString =>
      (* [case 0] at the end of the text *)
      Some (SOk (mkJsonToken JsonTokenEmpty EmptyString) EmptyString)
  | String chr r =>
      if Ascii.eqb chr "{" then Some (SOk (mkJsonToken JsonTokenObjectStart (str1 chr)) r)
      else if Ascii.eqb chr "}" then Some (SOk (mkJsonToken JsonTokenObjectEnd (str1 chr)) r)
      else if Ascii.eqb chr "[" then Some (SOk (mkJsonToken JsonTokenArrayStart (str1 chr)) r)
      else if Ascii.eqb chr "]" then Some (SOk (mkJsonToken JsonTokenArrayEnd (str1 chr)) r)
      else if Ascii.eqb chr "," then Some (SOk (mkJsonToken JsonTokenNext (str1 chr)) r)
      else if Ascii.eqb chr ":" then Some (SOk (mkJsonToken JsonTokenAssign (str1 chr)) r)
      else if Ascii.eqb chr ch_dq then
        Some (match getJsonString s with
              | SOk v r' => SOk (mkJsonToken JsonTokenString v) r'
              | SThrow m => SThrow m
              end)
      else if Ascii.eqb chr "-" || is_digit chr then
        let '(v, r') := getJsonNumber s in Some (SOk (mkJsonToken JsonTokenNumber v) r')
      else if Ascii.eqb chr "t" || Ascii.eqb chr "f" then
        Some (match getJsonBoolean s with
              | SOk v r' => SOk (mkJsonToken JsonTokenBoolean v) r'
              | SThrow m => SThrow m
              end)
      else if Ascii.eqb chr "n" then
        Some (match checkJsonEmpty "null" s with
              | SOk _ r' => SOk (mkJsonToken JsonTokenEmpty EmptyString) r'
              | SThrow m => SThrow m
              end)
      else if Ascii.eqb chr "u" then
        Some (match checkJsonEmpty "undefined" s with
              | SOk _ r' => SOk (mkJsonToken JsonTokenEmpty EmptyString) r'
              | SThrow m => SThrow m
              end)
      else if Ascii.eqb chr ch_nul then None
      else Some (SThrow ("Unexpected start sequence: " ++ str1 chr))
  end.

Inductive ScanResult :=
  | ScanOk (tokens : list JsonToken)
  | ScanThrow (msg : string)
  | ScanLoops.

(** The [while (!eos())] loop of [JsonReader::scan].  Every iteration
    that does not loop forever pushes one token and, except at the end of
    the text, consumes at least one character, so [scan] below gives the
    loop enough fuel; fuel is spent per token, never per character. *)
Fixpoint scan_loop (fuel : nat) (s : string) (acc : list JsonToken) : ScanResult :=
  match s with
  | EmptyString => ScanOk acc
  | String _ _ =>
      match fuel with
      | O => ScanLoops
      | S f =>
          match scan_token (eatWhitespace s) with
          | None => ScanLoops
          | Some (SThrow m) => ScanThrow m
          | Some (SOk tok rest) => scan_loop f rest (app acc [tok])
          end
      end
  end.

Definition scan (text : string) : ScanResult :=
  scan_loop (S (String.length text)) text [].

(** ** The [std::map] of a [JsonObject]

    [JsonObject] stores its members in a [std::map<std::string, JsonValue>]
    (the header is not part of this source tree; the spec describes "a
    sorted-by-key ordered associative container"): a list sorted by
    [String.compare], which orders strings as [std::string::compare] does
    (byte-wise, unsigned). *)

(** [find(key) != end()]. *)
Fixpoint obj_find (key : string) (obj : JsonObject) : bool :=
  match obj with
  | [] => false
  | (k, _) :: obj' => String.eqb k key || obj_find key obj'
  end.

(** [JsonObject::insert]: [_data[key] = value]. *)
Fixpoint obj_insert (key : string) (value : JsonValue) (obj : JsonObject) : JsonObject :=
  match obj with
  | [] => [(key, value)]
  | (k, v) :: obj' =>
      match String.compare key k with
      | Lt => (key, value) :: obj
      | Eq => (key, value) :: obj'
      | Gt => (k, v) :: obj_insert key value obj'
      end
  end.

(** The value stored under [key]: [*find(key)] when [find(key) != end()]
    ([JsonObject::find], lines 181-184). *)
Fixpoint obj_lookup (key : string) (obj : JsonObject) : option JsonValue :=
  match obj with
  | [] => None
  | (k, v) :: obj' => if String.eqb k key then Some v else obj_lookup key obj'
  end.

(** [s.c_str()] as the [%s] of [base::strfmt] reads it: the characters
    before the first NUL. *)
Fixpoint c_str (s : string) : string :=
  match s with
  | EmptyString => EmptyString
  | String c s' => if Ascii.eqb c ch_nul then EmptyString else String c (c_str s')
  end.

(** [std::map::count(key)]. *)
Definition obj_count (key : string) (obj : JsonObject) : nat :=
  List.length (filter (fun p => String.eqb (fst p) key) obj).

(** [JsonObject::operator[]], lines 270-273 ([std::map::operator[]]): the value stored
    under [name], or a default [JsonValue] inserted under [name]; the
    returned reference and the map afterwards. *)
Definition obj_index (name : string) (obj : JsonObject) : JsonValue * JsonObject :=
  match obj_lookup name obj with
  | Some v => (v, obj)
  | None => (JsonValue_default, obj_insert name JsonValue_default obj)
  end.

(** [JsonObject::get], lines 285-290 (and the [const] overload, lines
    302-307, with [_data.at(key)]): [std::out_of_range] when
    [_data.count(key) == 0], else [_data[key]]. *)
Definition JsonObject_get (key : string) (obj : JsonObject) : Result JsonValue :=
  if Nat.eqb (obj_count key obj) 0 then
    Throw (OutOfRange ("no element '" ++ c_str key ++ "' found in caontainer"))
  else Ok (fst (obj_index key obj)).

(** [JsonObject::size], lines 168-171. *)
Definition JsonObject_size (obj : JsonObject) : nat := List.length obj.

(** ** The parser: [JsonReader::parse*] over the token list

    The token iterator is the list of the tokens not yet consumed. *)

(** Outcome of [processToken]: its boolean result and the iterator. *)
Inductive TokResult :=
  | TokOk (ret : bool) (ts : list JsonToken)
  | TokThrow (msg : string).

(** [JsonReader::processToken(type, skip, mustMatch)]. *)
Definition processToken (type : JsonTokenType) (skip mustMatch : bool)
  (ts : list JsonToken) : TokResult :=
  let ret := match ts with
             | t :: _ => JsonTokenType_eqb (getTokenType t) type
             | [] => false
             end in
  if negb ret && mustMatch then
    TokThrow (match ts with
              | t :: _ => "Unexpected token: " ++ getValue t
              | [] => "Not compleated json data"
              end)
  else if skip && ret then
    match ts with
    | _ :: ts' => TokOk (match ts' with [] => false | _ => true end) ts'
    | [] => TokOk ret ts
    end
  else TokOk ret ts.

(** Outcome of a parsing function that fills the object [A] it was given:
    the filled object and the iterator, or the exception's message and
    the object as the exception leaves it. *)
Inductive Parsed (A : Type) :=
  | POk (a : A) (rest : list JsonToken)
  | PThrow (msg : string) (a : A).
Arguments POk {A} a rest.
Arguments PThrow {A} msg a.

(** The closing [processToken(end, true)] of an object or an array. *)
Definition parse_close {A} (type : JsonTokenType) (a : A) (ts : list JsonToken)
  : Parsed A :=
  match processToken type true true ts with
  | TokThrow m => PThrow m a
  | TokOk _ ts' => POk a ts'
  end.

(** [JsonReader::parseNumber]. *)
Definition parseNumber (t : JsonToken) (value : JsonValue) : JsonValue :=
  let number := parse_double_text (getValue t) in
  let value := if dbl_frac_is_zero number then setType VInt value
               else setType VDouble value in
  setNumber number value.

(** [JsonReader::parse(JsonValue&)] with [parseString], [parseNumber],
    [parseBoolean], [parseEmpty], [parseObject] (and the [go] test of
    [parse(JsonObject&)]) and [parseArray] inlined; [parse_members] is the
    [while (go)] loop of [parse(JsonObject&)], [parse_elements] the one of
    [parseArray].  [fuel] bounds the depth of the recursion; [read] gives
    twice the number of tokens, more than any run uses. *)
Fixpoint parse_value (fuel : nat) (value : JsonValue) (ts : list JsonToken)
  {struct fuel} : Parsed JsonValue :=
  match fuel with
  | O => PThrow "out of fuel" value
  | S f =>
  match ts with
  | [] => PThrow "Unexpected json data end." value
  | t :: ts' =>
    match getTokenType t with
    | JsonTokenString => POk (setType VString (setString (getValue t) value)) ts'
    | JsonTokenNumber => POk (parseNumber t value) ts'
    | JsonTokenBoolean =>
        POk (setType VBoolean (setBool (String.eqb (getValue t) "true") value)) ts'
    | JsonTokenEmpty => POk (setType VEmpty value) ts'
    | JsonTokenObjectStart =>
        let value1 := setType VObject value in
        (* processToken(JsonTokenObjectStart, true) && type != ObjectStart *)
        let go := match ts' with
                  | t' :: _ => negb (JsonTokenType_eqb (getTokenType t') JsonTokenObjectStart)
                  | [] => false
                  end in
        let r := if go then parse_members f (getObject value1) ts'
                 else parse_close JsonTokenObjectEnd (getObject value1) ts' in
        match r with
        | POk o rest => POk (setObject o value1) rest
        | PThrow m o => PThrow m (setObject o value1)
        end
    | JsonTokenArrayStart =>
        let value1 := setType VArray value in
        let go := match ts' with
                  | t' :: _ => negb (JsonTokenType_eqb (getTokenType t') JsonTokenArrayStart)
                  | [] => false
                  end in
        let r := if go then parse_elements f (getArray value1) ts'
                 else parse_close JsonTokenArrayEnd (getArray value1) ts' in
        match r with
        | POk a rest => POk (setArray a value1) rest
        | PThrow m a => PThrow m (setArray a value1)
        end
    | _ => PThrow ("Unexpected token: " ++ getValue t) value
    end
  end
  end
with parse_members (fuel : nat) (obj : JsonObject) (ts : list JsonToken)
  {struct fuel} : Parsed JsonObject :=
  match fuel with
  | O => PThrow "out of fuel" obj
  | S f =>
  (* processToken(JsonTokenString); name = value; ++iterator *)
  match ts with
  | [] => PThrow "Not compleated json data" obj
  | t :: ts1 =>
    if negb (JsonTokenType_eqb (getTokenType t) JsonTokenString) then
      PThrow ("Unexpected token: " ++ getValue t) obj
    else
    let name := getValue t in
    match processToken JsonTokenAssign true true ts1 with
    | TokThrow m => PThrow m obj
    | TokOk _ ts2 =>
      match parse_value f JsonValue_default ts2 with
      | PThrow m _ => PThrow m obj
      | POk value ts3 =>
        if obj_find name obj then PThrow ("Duplicate member: " ++ name) obj
        else
          let obj' := obj_insert name value obj in
          match processToken JsonTokenNext true false ts3 with
          | TokOk true ts4 => parse_members f obj' ts4
          | TokOk false ts4 => parse_close JsonTokenObjectEnd obj' ts4
          | TokThrow m => PThrow m obj'
          end
      end
    end
  end
  end
with parse_elements (fuel : nat) (arr : JsonArray) (ts : list JsonToken)
  {struct fuel} : Parsed JsonArray :=
  match fuel with
  | O => PThrow "out of fuel" arr
  | S f =>
    match parse_value f JsonValue_default ts with
    | PThrow m _ => PThrow m arr
    | POk value ts1 =>
      let arr' := app arr [value] in
      match processToken JsonTokenNext true false ts1 with
      | TokOk true ts2 => parse_elements f arr' ts2
      | TokOk false ts2 => parse_close JsonTokenArrayEnd arr' ts2
      | TokThrow m => PThrow m arr'
      end
    end
  end.

(** Outcome of [JsonReader::read(text, value)]: the caller's [value] after
    the call, or after the exception left it, or a call that never returns. *)
Inductive ReadResult :=
  | ReadOk (v : JsonValue)
  | ReadThrow (msg : string) (v : JsonValue)
  | ReadLoops.

(** [JsonReader::read]: [scan()] then [parse(value)]; tokens left over
    after the value are ignored. *)
Definition read (text : string) (value : JsonValue) : ReadResult :=
  match scan text with
  | ScanThrow m => ReadThrow m value
  | ScanLoops => ReadLoops
  | ScanOk tokens =>
      match parse_value (2 * List.length tokens + 2) value tokens with
      | POk v _ => ReadOk v
      | PThrow m v => ReadThrow m v
      end
  end.

(** ** The writer: [JsonWriter] *)

Definition hex_char (n : N) : ascii :=
  if (n <? 10)%N then ascii_of_N (48 + n) else ascii_of_N (87 + n).

(** Modelled from the spec: [base::escape_json_string] (library/base, not
    part of this source tree), which escapes "quote, backslash, control
    characters per standard JSON string-escaping rules": a quote and a
    backslash are preceded by a backslash, backspace, form feed, newline,
    carriage return and tab become [\b], [\f], [\n], [\r], [\t], the other
    characters below 32 become [\u00XX], and every other character is kept. *)
Definition escape_char (c : ascii) : string :=
  let n := N_of_ascii c in
  if Ascii.eqb c ch_dq || Ascii.eqb c ch_bs then String ch_bs (str1 c)
  else if Ascii.eqb c ch_bsp then String ch_bs "b"
  else if Ascii.eqb c ch_ff then String ch_bs "f"
  else if Ascii.eqb c ch_nl then String ch_bs "n"
  else if Ascii.eqb c ch_cr then String ch_bs "r"
  else if Ascii.eqb c ch_tab then String ch_bs "t"
  else if (n <? 32)%N then
    String ch_bs ("u00" ++ str1 (hex_char (n / 16)) ++ str1 (hex_char (n mod 16)))
  else str1 c.

Fixpoint escape_json_string (s : string) : string :=
  match s with
  | EmptyString => EmptyString
  | String c s' => escape_char c ++ escape_json_string s'
  end.

(** [JsonWriter::write(const std::string&)]. *)
Definition write_string (s : string) : string :=
  str1 ch_dq ++ escape_json_string s ++ str1 ch_dq.

(** [std::string(depth, '\t')]. *)
Fixpoint tabs (n : nat) : string :=
  match n with O => EmptyString | S n' => String ch_tab (tabs n') end.

Definition nl : string := str1 ch_nl.

(** The loop of [JsonWriter::write(const JsonObject&)] at indentation
    [depth]: each member on a line of its own, a comma after all but the
    last one; [wv] writes a value. *)
Fixpoint write_members (wv : nat -> JsonValue -> string) (depth : nat)
  (l : list (string * JsonValue)) : string :=
  match l with
  | [] => EmptyString
  | (k, x) :: l' =>
      tabs depth ++ write_string k ++ " : " ++ wv depth x
      ++ match l' with [] => EmptyString | _ => "," end
      ++ nl ++ write_members wv depth l'
  end.

(** The loop of [JsonWriter::write(const JsonArray&)]. *)
Fixpoint write_elements (wv : nat -> JsonValue -> string) (depth : nat)
  (l : list JsonValue) : string :=
  match l with
  | [] => EmptyString
  | x :: l' =>
      tabs depth ++ wv depth x
      ++ match l' with [] => EmptyString | _ => "," end
      ++ nl ++ write_elements wv depth l'
  end.

(** [JsonWriter::write(const JsonValue&)] at indentation [_depth], with
    [write(const JsonObject&)] and [write(const JsonArray&)] inlined
    around their loops: [_depth] is one deeper inside the container, and
    there is no line break inside an empty container. *)
Fixpoint write_value (depth : nat) (v : JsonValue) {struct v} : string :=
  match v with
  | mkJsonValue d i u b s obj arr ty =>
    match ty with
    | VInt => to_string_Z (dbl_trunc d)
    | VBoolean => if b then "true" else "false"
    | VString => write_string s
    | VDouble => to_string_double d
    | VInt64 => to_string_Z i
    | VUint64 => to_string_Z u
    | VObject =>
        "{" ++ match obj with [] => EmptyString | _ => nl end
        ++ write_members write_value (S depth) obj
        ++ tabs depth ++ "}"
    | VArray =>
        "[" ++ match arr with [] => EmptyString | _ => nl end
        ++ write_elements write_value (S depth) arr
        ++ tabs depth ++ "]"
    | VEmpty => "null"
    end
  end.

(** [JsonWriter::write(std::string &text, const JsonValue &value)]: a
    writer at depth [0]. *)
Definition serialize (value : JsonValue) : string := write_value 0 value.

(** Every character of the text is one that [isWhiteSpace] accepts. *)
Fixpoint all_white (s : string) : bool :=
  match s with
  | EmptyString => true
  | String c s' => isWhiteSpace c && all_white s'
  end.

(** ** Round trip of the writer through the reader

    The trees the round trip is stated for, the tag-and-payload agreement
    between a tree and its re-read copy, and the token list the tokenizer
    produces from a written tree. *)

(** A character the writer emits unescaped and [getJsonString] reads back
    as itself: not a quote, not a backslash, not a control character. *)
Definition plain_char (c : ascii) : bool :=
  negb (Ascii.eqb c ch_dq) && negb (Ascii.eqb c ch_bs) && (32 <=? N_of_ascii c)%N.

Fixpoint plain_string (s : string) : bool :=
  match s with
  | EmptyString => true
  | String c s' => plain_char c && plain_string s'
  end.

Definition str_lt (a b : string) : bool :=
  match String.compare a b with Lt => true | _ => false end.

(** The [std::map] invariant: keys strictly increasing. *)
Fixpoint keys_sorted (l : JsonObject) : bool :=
  match l with
  | [] => true
  | (k, _) :: l' => forallb (fun p => str_lt k (fst p)) l' && keys_sorted l'
  end.

Fixpoint members_ready (ready : JsonValue -> bool) (l : list (string * JsonValue)) : bool :=
  match l with
  | [] => true
  | (k, x) :: l' => plain_string k && ready x && members_ready ready l'
  end.

Fixpoint elements_ready (ready : JsonValue -> bool) (l : list JsonValue) : bool :=
  match l with
  | [] => true
  | x :: l' => ready x && elements_ready ready l'
  end.

(** Trees whose strings and keys are plain, whose objects keep the map
    invariant, whose objects and arrays are non-empty and whose arrays do
    not start with an array; an [Int] leaf's double truncates into [int]'s
    range (outside it [static_cast<int>] is undefined), a [Double] leaf
    holds a [double], and [Int64]/[Uint64] leaves are below [2^53] in
    magnitude, where every integer is a [double]. *)
Fixpoint rt_ready (v : JsonValue) : bool :=
  match v with
  | mkJsonValue d i u b s obj arr ty =>
    match ty with
    | VInt => (INT_MIN <=? dbl_trunc_Z d)%Z && (dbl_trunc_Z d <=? INT_MAX)%Z
    | VDouble => is_binary64 d
    | VInt64 => (Z.abs i <? 2 ^ 53)%Z
    | VUint64 => (0 <=? u)%Z && (u <? 2 ^ 53)%Z
    | VString => plain_string s
    | VObject =>
        match obj with [] => false | _ => true end && keys_sorted obj &&
        members_ready rt_ready obj
    | VArray =>
        match arr with [] => false | x :: _ => negb (DataType_eqb (_type x) VArray) end &&
        elements_ready rt_ready arr
    | _ => true
    end
  end.

Fixpoint members_equiv (R : JsonValue -> JsonValue -> Prop)
  (l l2 : list (string * JsonValue)) : Prop :=
  match l, l2 with
  | [], [] => True
  | (k, x) :: l', (k2, y) :: l2' => k = k2 /\ R x y /\ members_equiv R l' l2'
  | _, _ => False
  end.

Fixpoint elements_equiv (R : JsonValue -> JsonValue -> Prop) (l l2 : list JsonValue) : Prop :=
  match l, l2 with
  | [], [] => True
  | x :: l', y :: l2' => R x y /\ elements_equiv R l' l2'
  | _, _ => False
  end.

(** [w] agrees with [v] in tag and payload, where [Int64]/[Uint64] leaves
    and [Double] leaves with a zero fractional part become [Int] leaves of
    the same numeric value. *)
Fixpoint rt_equiv (v w : JsonValue) {struct v} : Prop :=
  match v with
  | mkJsonValue d i u b s obj arr ty =>
    match ty with
    | VInt => _type w = VInt /\ getInt w = dbl_trunc d
    | VBoolean => _type w = VBoolean /\ _bool w = b
    | VString => _type w = VString /\ _string w = s
    | VDouble =>
        _type w = (if dbl_frac_is_zero d then VInt else VDouble) /\ dbl_eqv (_double w) d
    | VInt64 => _type w = VInt /\ _double w = dbl_of_Z i
    | VUint64 => _type w = VInt /\ _double w = dbl_of_Z u
    | VObject => _type w = VObject /\ members_equiv rt_equiv obj (_object w)
    | VArray => _type w = VArray /\ elements_equiv rt_equiv arr (_array w)
    | VEmpty => _type w = VEmpty
    end
  end.

Definition tok (ty : JsonTokenType) (s : string) : JsonToken := mkJsonToken ty s.

Definition sep_tok {A} (l : list A) : list JsonToken :=
  match l with [] => [] | _ => [tok JsonTokenNext ","] end.

Fixpoint members_toks (tv : JsonValue -> list JsonToken) (l : list (string * JsonValue))
  : list JsonToken :=
  match l with
  | [] => []
  | (k, x) :: l' =>
      tok JsonTokenString k :: tok JsonTokenAssign ":" ::
      app (tv x) (app (sep_tok l') (members_toks tv l'))
  end.

Fixpoint elements_toks (tv : JsonValue -> list JsonToken) (l : list JsonValue)
  : list JsonToken :=
  match l with
  | [] => []
  | x :: l' => app (tv x) (app (sep_tok l') (elements_toks tv l'))
  end.

(** The tokens [scan] produces from [write_value d v]. *)
Fixpoint toks_of (v : JsonValue) : list JsonToken :=
  match v with
  | mkJsonValue d i u b s obj arr ty =>
    match ty with
    | VInt => [tok JsonTokenNumber (to_string_Z (dbl_trunc d))]
    | VBoolean => [tok JsonTokenBoolean (if b then "true" else "false")]
    | VString => [tok JsonTokenString s]
    | VDouble => [tok JsonTokenNumber (to_string_double d)]
    | VInt64 => [tok JsonTokenNumber (to_string_Z i)]
    | VUint64 => [tok JsonTokenNumber (to_string_Z u)]
    | VObject =>
        tok JsonTokenObjectStart "{" :: app (members_toks toks_of obj) [tok JsonTokenObjectEnd "}"]
    | VArray =>
        tok JsonTokenArrayStart "[" :: app (elements_toks toks_of arr) [tok JsonTokenArrayEnd "]"]
    | VEmpty => [tok JsonTokenEmpty EmptyString]
    end
  end.

(** Shapes of number texts. *)
Fixpoint all_digits (s : string) : bool :=
  match s with
  | EmptyString => true
  | String c s' => is_digit c && all_digits s'
  end.

Fixpoint all_numeric (s : string) : bool :=
  match s with
  | EmptyString => true
  | String c s' => is_numeric_char c && all_numeric s'
  end.

(** The first character sends [scan] to [getJsonNumber]. *)
Definition num_start (s : string) : bool :=
  match s with
  | String c _ => Ascii.eqb c "-" || is_digit c
  | EmptyString => false
  end.

(** The text does not continue a number. *)
Definition num_free_head (s : string) : bool :=
  match s with
  | String c _ => negb (is_numeric_char c)
  | EmptyString => true
  end.

Definition sgn (neg : bool) (m : Z) : Z := if neg then (- m)%Z else m.

(** The characters with a [case] in the [switch] of [JsonReader::scan]. *)
Definition scan_case_chars : list ascii :=
  ["{"; "}"; "["; "]"; ","; ":"; ch_dq; "-"; "0"; "1"; "2"; "3"; "4"; "5"; "6"; "7";
   "8"; "9"; "t"; "f"; "n"; "u"; ch_nul]%char.

(** A one-character string holding a double quote. *)
Definition q : string := str1 ch_dq.

(** The text after an opening quote holds a quote that ends the string
    for [getJsonString]: one that does not follow an escaping backslash. *)
Fixpoint has_closing_quote (s : string) : bool :=
  match s with
  | EmptyString => false
  | String c s' =>
      if Ascii.eqb c ch_dq then true
      else if Ascii.eqb c ch_bs then
        match s' with
        | String _ s'' => has_closing_quote s''
        | EmptyString => false
        end
      else has_closing_quote s'
  end.

(** A character that [escape_json_string] writes either as itself or with
    a one-letter escape: every character but the control characters other
    than backspace, form feed, newline, carriage return and tab. *)
Definition json_char (c : ascii) : bool :=
  (32 <=? N_of_ascii c)%N || Ascii.eqb c ch_bsp || Ascii.eqb c ch_ff
  || Ascii.eqb c ch_nl || Ascii.eqb c ch_cr || Ascii.eqb c ch_tab.

Fixpoint json_string (s : string) : bool :=
  match s with
  | EmptyString => true
  | String c s' => json_char c && json_string s'
  end.

(** * Properties *)

(** ** Value model *)

(** C6: the typed constructors.  [JsonValue(int)] tags the value [VInt]
    but leaves the payload [_double] at [0], so [getInt] returns [0]
    instead of the argument; the other typed constructors store their
    argument under the matching tag. *)
Theorem C6_int_constructor_drops_value :
  getType (JsonValue_of_int 5) = VInt /\ getInt (JsonValue_of_int 5) = 0%Z /\
  (forall x, getType (JsonValue_of_bool x) = VBoolean /\ getBool (JsonValue_of_bool x) = x) /\
  (forall x, getType (JsonValue_of_int64 x) = VInt64 /\ getInt64 (JsonValue_of_int64 x) = x) /\
  (forall x, getType (JsonValue_of_uint64 x) = VUint64 /\ getUint64 (JsonValue_of_uint64 x) = x) /\
  (forall x, getType (JsonValue_of_double x) = VDouble /\ getDouble (JsonValue_of_double x) = x) /\
  (forall x, getType (JsonValue_of_string x) = VString /\ getString (JsonValue_of_string x) = x) /\
  (forall x, getType (JsonValue_of_object x) = VObject /\ getObject (JsonValue_of_object x) = x) /\
  (forall x, getType (JsonValue_of_array x) = VArray /\ getArray (JsonValue_of_array x) = x).
Proof. repeat split. Qed.

Lemma DataType_eqb_spec (a b : DataType) : DataType_eqb a b = true <-> a = b.
Proof. destruct a, b; simpl; split; congruence. Qed.

Lemma checked_spec {A} (ty : DataType) (get : JsonValue -> A) (v : JsonValue) :
  (checked ty get v = Throw BadCast <-> getType v <> ty) /\
  (getType v = ty -> checked ty get v = Ok (get v)).
Proof.
  unfold checked. destruct (DataType_eqb (getType v) ty) eqn:E; simpl.
  - apply DataType_eqb_spec in E. split; [split; [discriminate | congruence] | auto].
  - assert (getType v <> ty) by (intro H; apply DataType_eqb_spec in H; congruence).
    split; [tauto | intro; contradiction].
Qed.

(** C7: each conversion operator throws [bad_cast] exactly when the tag
    is not its target type and returns the getter's value otherwise; each
    typed getter is a total function whose result does not depend on the
    tag. *)
Theorem C7_conversion_operators_check_tag :
  (forall v, (operator_int v = Throw BadCast <-> getType v <> VInt) /\
             (getType v = VInt -> operator_int v = Ok (getInt v))) /\
  (forall v, (operator_double v = Throw BadCast <-> getType v <> VDouble) /\
             (getType v = VDouble -> operator_double v = Ok (getDouble v))) /\
  (forall v, (operator_bool v = Throw BadCast <-> getType v <> VBoolean) /\
             (getType v = VBoolean -> operator_bool v = Ok (getBool v))) /\
  (forall v, (operator_int64 v = Throw BadCast <-> getType v <> VInt64) /\
             (getType v = VInt64 -> operator_int64 v = Ok (getInt64 v))) /\
  (forall v, (operator_uint64 v = Throw BadCast <-> getType v <> VUint64) /\
             (getType v = VUint64 -> operator_uint64 v = Ok (getUint64 v))) /\
  (forall v, (operator_string v = Throw BadCast <-> getType v <> VString) /\
             (getType v = VString -> operator_string v = Ok (getString v))) /\
  (forall v, (operator_JsonObject v = Throw BadCast <-> getType v <> VObject) /\
             (getType v = VObject -> operator_JsonObject v = Ok (getObject v))) /\
  (forall v, (operator_JsonArray v = Throw BadCast <-> getType v <> VArray) /\
             (getType v = VArray -> operator_JsonArray v = Ok (getArray v))) /\
  (forall v t,
     getInt (setType t v) = getInt v /\ getDouble (setType t v) = getDouble v /\
     getBool (setType t v) = getBool v /\ getInt64 (setType t v) = getInt64 v /\
     getUint64 (setType t v) = getUint64 v /\ getString (setType t v) = getString v /\
     getObject (setType t v) = getObject v /\ getArray (setType t v) = getArray v).
Proof.
  repeat (split; [intro v; exact (checked_spec _ _ v)|]).
  intros v t; destruct v; repeat split.
Qed.

(** C8: [JsonArray::at] throws [std::out_of_range] exactly at the indices
    that are not valid.  Its own test [pos > size()] throws its message
    ["Index '<pos>' is out of range."] exactly when [pos > size()]; at
    [pos = size()] the test lets the call through to [std::vector::at],
    which throws libstdc++'s [_M_range_check] message instead. *)
Theorem C8_at_out_of_range :
  (forall (a : JsonArray) pos d, pos < List.length a -> JsonArray_at a pos = Ok (nth pos a d)) /\
  (forall (a : JsonArray) pos, List.length a <= pos ->
     exists msg, JsonArray_at a pos = Throw (OutOfRange msg)) /\
  (forall (a : JsonArray) pos,
     JsonArray_at a pos =
       Throw (OutOfRange ("Index '" ++ digits_of_N (N.of_nat pos) ++ "' is out of range."))
     <-> List.length a < pos) /\
  (forall (a : JsonArray),
     JsonArray_at a (List.length a) = vector_at a (List.length a) /\
     JsonArray_at a (List.length a) =
       Throw (OutOfRange (range_check_msg (List.length a) (List.length a)))).
Proof.
  split; [|split; [|split]].
  - intros a pos d H. unfold JsonArray_at.
    replace (Nat.ltb (List.length a) pos) with false
      by (symmetry; apply Nat.ltb_ge; lia).
    unfold vector_at. rewrite (nth_error_nth' a d H). reflexivity.
  - intros a pos H. unfold JsonArray_at.
    destruct (Nat.ltb (List.length a) pos); [eexists; reflexivity|].
    unfold vector_at. rewrite (proj2 (nth_error_None a pos) H). eexists; reflexivity.
  - intros a pos. unfold JsonArray_at. split.
    + destruct (Nat.ltb_spec (List.length a) pos) as [Hlt|Hge]; [intros _; exact Hlt|].
      unfold vector_at. destruct (nth_error a pos); intro H; [discriminate H|].
      injection H as H. unfold range_check_msg in H. cbn [append] in H. discriminate H.
    + intro H. rewrite (proj2 (Nat.ltb_lt _ _) H). reflexivity.
  - intros a. unfold JsonArray_at. rewrite Nat.ltb_irrefl. split; [reflexivity|].
    unfold vector_at. rewrite (proj2 (nth_error_None a _) (le_n _)). reflexivity.
Qed.

Lemma C7_witness :
  operator_int (setNumber (mkDbl 7 0) (JsonValue_of_int 7)) = Ok 7%Z /\
  operator_double (JsonValue_of_int 7) = Throw BadCast.
Proof.
  split.
  - exact (proj2 (proj1 C7_conversion_operators_check_tag
                   (setNumber (mkDbl 7 0) (JsonValue_of_int 7))) eq_refl).
  - apply (proj2 (proj1 (proj1 (proj2 C7_conversion_operators_check_tag)
                           (JsonValue_of_int 7)))).
    discriminate.
Defined.

Lemma C8_witness :
  JsonArray_at [JsonValue_of_bool true] 0 = Ok (JsonValue_of_bool true) /\
  (exists msg, JsonArray_at [JsonValue_of_bool true] 1 = Throw (OutOfRange msg)).
Proof.
  split.
  - exact (proj1 C8_at_out_of_range [JsonValue_of_bool true] 0 JsonValue_default
             (le_n 1)).
  - exact (proj1 (proj2 C8_at_out_of_range) [JsonValue_of_bool true] 1 (le_n 1)).
Defined.

(** ** Tokenizer and parser on concrete texts *)

(** C1: the empty containers [{}] and [[]] serialize to exactly [{}] and
    [[]], but [read] rejects both: after the opening token the loop guard
    compares the next token with the opening type instead of the closing
    one, so the loop body runs and meets the closing token. *)
Theorem C1_empty_containers_rejected :
  read "{}" JsonValue_default =
    ReadThrow "Unexpected token: }" (setType VObject JsonValue_default) /\
  read "[]" JsonValue_default =
    ReadThrow "Unexpected token: ]" (setType VArray JsonValue_default) /\
  serialize (JsonValue_of_object []) = "{}" /\
  serialize (JsonValue_of_array []) = "[]".
Proof. repeat split; vm_compute; reflexivity. Qed.

(** C3: [getJsonBoolean] never throws, whatever it captures, so the text
    [tru] reads as the boolean [false]. *)
Theorem C3_incomplete_boolean_accepted :
  read "tru" JsonValue_default = ReadOk (setType VBoolean (setBool false JsonValue_default)) /\
  (forall s, exists b r, getJsonBoolean s = SOk b r).
Proof.
  split; [vm_compute; reflexivity|].
  intros s. unfold getJsonBoolean.
  destruct (take_chars _ s) as [b r].
  destruct (String.eqb b "true") eqn:Et; [|eexists _, _; reflexivity].
  apply String.eqb_eq in Et; subst b. simpl. eexists _, _; reflexivity.
Qed.

(** C4 (as the code has it): [3] reads as [VInt] 3, [3.0] reads as [VInt]
    with the double payload 3.0 (its fractional part is zero), [3.5] reads
    as [VDouble] 3.5. *)
Theorem C4_numeric_tagging :
  read "3" JsonValue_default = ReadOk (setNumber (mkDbl 3 0) (setType VInt JsonValue_default)) /\
  read "3.0" JsonValue_default = ReadOk (setNumber (mkDbl 30 (-1)) (setType VInt JsonValue_default)) /\
  read "3.5" JsonValue_default = ReadOk (setNumber (mkDbl 35 (-1)) (setType VDouble JsonValue_default)) /\
  dbl_eqv (mkDbl 30 (-1)) (dbl_of_Z 3) /\
  getInt (setNumber (mkDbl 3 0) (setType VInt JsonValue_default)) = 3%Z /\
  getInt (setNumber (mkDbl 30 (-1)) (setType VInt JsonValue_default)) = 3%Z.
Proof. repeat split; vm_compute; reflexivity. Qed.

(** C4 as stated fails: [3.0] does not read as a [VDouble]. *)
Lemma C4_counterexample :
  ~ (exists w, read "3.0" JsonValue_default = ReadOk w /\ getType w = VDouble).
Proof.
  intros [w [H Ht]]. vm_compute in H. injection H as <-. discriminate Ht.
Qed.

(** C5: a member whose key is already in the object being built makes the
    object loop throw, with the object left as it was (the earlier value
    is not overwritten); when the member's value parses, the exception is
    the duplicate-member one.  On [{"a":1,"a":2}] the caller's value is
    left holding the first member. *)
Theorem C5_duplicate_member_rejected :
  read ("{" ++ q ++ "a" ++ q ++ ":1," ++ q ++ "a" ++ q ++ ":2}") JsonValue_default =
    ReadThrow "Duplicate member: a"
      (setObject [("a", setNumber (mkDbl 1 0) (setType VInt JsonValue_default))]
                 (setType VObject JsonValue_default)) /\
  (forall fuel obj t ts,
     getTokenType t = JsonTokenString -> obj_find (getValue t) obj = true ->
     exists msg, parse_members fuel obj (t :: ts) = PThrow msg obj) /\
  (forall fuel obj t a ts v rest,
     getTokenType t = JsonTokenString -> getTokenType a = JsonTokenAssign ->
     obj_find (getValue t) obj = true ->
     parse_value fuel JsonValue_default ts = POk v rest ->
     parse_members (S fuel) obj (t :: a :: ts) =
       PThrow ("Duplicate member: " ++ getValue t) obj).
Proof.
  split; [vm_compute; reflexivity|split].
  - intros [|f] obj t ts Ht Hf; [eexists; reflexivity|].
    simpl. rewrite Ht. simpl.
    destruct (processToken JsonTokenAssign true true ts) as [r ts2|m];
      [|eexists; reflexivity].
    destruct (parse_value f JsonValue_default ts2) as [v ts3|m v];
      [|eexists; reflexivity].
    rewrite Hf. eexists; reflexivity.
  - intros f obj t a ts v rest Ht Ha Hf Hp.
    simpl. rewrite Ht. simpl. unfold processToken at 1. rewrite Ha. simpl.
    destruct ts; rewrite Hp, Hf; reflexivity.
Qed.

Lemma C5_witness :
  exists msg,
    parse_members 3 [("a", JsonValue_default)]
      (mkJsonToken JsonTokenString "a" :: mkJsonToken JsonTokenAssign ":" :: []) =
    PThrow msg [("a", JsonValue_default)].
Proof.
  exact (proj1 (proj2 C5_duplicate_member_rejected) 3 [("a", JsonValue_default)]
           (mkJsonToken JsonTokenString "a") [mkJsonToken JsonTokenAssign ":"]
           eq_refl eq_refl).
Defined.

Lemma eatWhitespace_all_white (s : string) :
  all_white s = true -> eatWhitespace s = EmptyString.
Proof.
  induction s as [|c s IH]; simpl; [reflexivity|].
  intros H. apply andb_prop in H as [H1 H2]. rewrite H1. auto.
Qed.

(** C10: an empty text throws "Unexpected json data end." and leaves the
    caller's value alone; a non-empty text of whitespace reads as [null]
    (the caller's value retagged [VEmpty]), through the empty token that
    [scan] pushes when the whitespace runs to the end of the text. *)
Theorem C10_empty_and_blank_input :
  (forall init, read "" init = ReadThrow "Unexpected json data end." init) /\
  (forall s init, s <> EmptyString -> all_white s = true ->
     scan s = ScanOk [mkJsonToken JsonTokenEmpty EmptyString] /\
     read s init = ReadOk (setType VEmpty init)).
Proof.
  split; [reflexivity|].
  intros s init Hne Hw.
  assert (Hscan : scan s = ScanOk [mkJsonToken JsonTokenEmpty EmptyString]).
  { unfold scan. destruct s as [|c s']; [congruence|].
    cbn [scan_loop]. rewrite (eatWhitespace_all_white _ Hw). reflexivity. }
  split; [exact Hscan|].
  unfold read. rewrite Hscan. reflexivity.
Qed.

Lemma C10_witness :
  scan " " = ScanOk [mkJsonToken JsonTokenEmpty EmptyString] /\
  read " " JsonValue_default = ReadOk (setType VEmpty JsonValue_default).
Proof.
  exact (proj2 C10_empty_and_blank_input " " JsonValue_default
           ltac:(discriminate) eq_refl).
Defined.

(** ** Round trip: decimal texts *)

Lemma digit_char_N (m : N) : (m < 10)%N -> N_of_ascii (digit_char m) = (48 + m)%N.
Proof. intro H. unfold digit_char. apply N_ascii_embedding. lia. Qed.

Lemma is_digit_digit_char (m : N) : (m < 10)%N -> is_digit (digit_char m) = true.
Proof.
  intro H. unfold is_digit. rewrite (digit_char_N m H).
  apply andb_true_intro; split; apply N.leb_le; lia.
Qed.

Lemma digit_val_digit_char (m : N) : (m < 10)%N -> digit_val (digit_char m) = m.
Proof. intro H. unfold digit_val. rewrite (digit_char_N m H). lia. Qed.

Lemma digits_value_acc_app (s1 s2 : string) (acc : N) :
  digits_value_acc acc (s1 ++ s2) = digits_value_acc (digits_value_acc acc s1) s2.
Proof. revert acc. induction s1 as [|c s1 IH]; intro acc; simpl; auto. Qed.

Lemma fixed_digits_value (k : nat) (n acc : N) :
  digits_value_acc acc (fixed_digits k n)
  = (acc * 10 ^ N.of_nat k + n mod 10 ^ N.of_nat k)%N.
Proof.
  revert n acc. induction k as [|k IH]; intros n acc.
  - simpl. rewrite N.mod_1_r. lia.
  - rewrite Nat2N.inj_succ, N.pow_succ_r'.
    cbn [fixed_digits]. rewrite digits_value_acc_app, IH. cbn [str1 digits_value_acc].
    assert (Hlt : (n mod 10 < 10)%N) by (apply N.mod_lt; discriminate).
    rewrite (digit_val_digit_char _ Hlt).
    rewrite N.Div0.mod_mul_r.
    ring.
Qed.

Lemma string_length_app (s1 s2 : string) :
  String.length (s1 ++ s2) = (String.length s1 + String.length s2)%nat.
Proof. induction s1 as [|c s1 IH]; simpl; congruence. Qed.

Lemma fixed_digits_length (k : nat) (n : N) : String.length (fixed_digits k n) = k.
Proof.
  revert n. induction k as [|k IH]; intro n; simpl; [reflexivity|].
  rewrite string_length_app, IH. simpl. lia.
Qed.

Lemma all_digits_app (s1 s2 : string) :
  all_digits (s1 ++ s2) = all_digits s1 && all_digits s2.
Proof. induction s1 as [|c s1 IH]; simpl; [reflexivity|]. rewrite IH, andb_assoc. reflexivity. Qed.

Lemma all_numeric_app (s1 s2 : string) :
  all_numeric (s1 ++ s2) = all_numeric s1 && all_numeric s2.
Proof. induction s1 as [|c s1 IH]; simpl; [reflexivity|]. rewrite IH, andb_assoc. reflexivity. Qed.

Lemma fixed_digits_all_digits (k : nat) (n : N) : all_digits (fixed_digits k n) = true.
Proof.
  revert n. induction k as [|k IH]; intro n; simpl; [reflexivity|].
  rewrite all_digits_app, IH. simpl.
  rewrite is_digit_digit_char by (apply N.mod_lt; discriminate). reflexivity.
Qed.

Lemma all_digits_numeric (s : string) : all_digits s = true -> all_numeric s = true.
Proof.
  induction s as [|c s IH]; simpl; [reflexivity|].
  intro H. apply andb_prop in H as [H1 H2].
  unfold is_numeric_char. rewrite H1, (IH H2). reflexivity.
Qed.

Lemma ndigits_aux_bound (fuel : nat) (n : N) :
  (N.to_nat n < fuel)%nat -> (n < 10 ^ N.of_nat (ndigits_aux fuel n))%N.
Proof.
  revert n. induction fuel as [|f IH]; intros n Hf; [lia|].
  simpl. destruct (N.ltb_spec n 10) as [Hn|Hn]; [simpl; lia|].
  assert (Hd : (N.to_nat (n / 10) < f)%nat).
  { assert (n / 10 < n)%N by (apply N.div_lt; lia). lia. }
  specialize (IH _ Hd).
  rewrite Nat2N.inj_succ, N.pow_succ_r'.
  pose proof (N.div_mod n 10 ltac:(discriminate)).
  pose proof (N.mod_lt n 10 ltac:(discriminate)).
  nia.
Qed.

Lemma ndigits_aux_pos (fuel : nat) (n : N) : (1 <= ndigits_aux fuel n)%nat.
Proof. revert n. destruct fuel; intro n; simpl; [lia|]. destruct (n <? 10)%N; lia. Qed.

Lemma digits_of_N_value (n : N) : digits_value (digits_of_N n) = n.
Proof.
  unfold digits_value, digits_of_N, ndigits. rewrite fixed_digits_value.
  rewrite N.mod_small; [lia|]. apply ndigits_aux_bound. lia.
Qed.

Lemma digits_of_N_all_digits (n : N) : all_digits (digits_of_N n) = true.
Proof. apply fixed_digits_all_digits. Qed.

Lemma digits_of_N_nonempty (n : N) : digits_of_N n <> EmptyString.
Proof.
  unfold digits_of_N. intro H.
  pose proof (fixed_digits_length (ndigits n) n) as Hl. rewrite H in Hl.
  pose proof (ndigits_aux_pos (S (N.to_nat n)) n). unfold ndigits in Hl.
  cbn [String.length] in Hl. lia.
Qed.

Lemma string_app_nil_r (s : string) : s ++ EmptyString = s.
Proof. induction s as [|c s IH]; simpl; congruence. Qed.

Lemma string_app_assoc (s1 s2 s3 : string) : (s1 ++ s2) ++ s3 = s1 ++ s2 ++ s3.
Proof. induction s1 as [|c s1 IH]; simpl; congruence. Qed.

Lemma digit_neq (c x : ascii) : is_digit c = true -> is_digit x = false -> Ascii.eqb c x = false.
Proof. intros Hc Hx. destruct (Ascii.eqb_spec c x); [subst; congruence | reflexivity]. Qed.

Lemma read_sign_signed (neg : bool) (s : string) :
  match s with String c _ => is_digit c = true | EmptyString => False end ->
  read_sign (Z_sign_text neg ++ s) = (neg, s).
Proof.
  destruct s as [|c s]; [contradiction|]. intro Hc.
  destruct neg; simpl; [reflexivity|].
  rewrite (digit_neq c "-" Hc eq_refl), (digit_neq c "+" Hc eq_refl). reflexivity.
Qed.

Lemma span_digits_app (s r : string) :
  all_digits s = true ->
  match r with String c _ => is_digit c = false | EmptyString => True end ->
  span_digits (s ++ r) = (s, r).
Proof.
  intros Hs Hr. induction s as [|c s IH]; simpl.
  - destruct r as [|c r]; [reflexivity|]. simpl. rewrite Hr. reflexivity.
  - simpl in Hs. apply andb_prop in Hs as [Hc Hs]. rewrite Hc, (IH Hs). reflexivity.
Qed.

Lemma span_digits_all (s : string) : all_digits s = true -> span_digits s = (s, EmptyString).
Proof.
  intro Hs. pose proof (span_digits_app s EmptyString Hs I) as H.
  rewrite string_app_nil_r in H. exact H.
Qed.

(** A sign and a digit string read back as an integer. *)
Lemma parse_double_text_integer (neg : bool) (s1 : string) :
  all_digits s1 = true -> s1 <> EmptyString ->
  parse_double_text (Z_sign_text neg ++ s1) = to_double (mkDbl (sgn neg (Z.of_N (digits_value s1))) 0).
Proof.
  intros Hs Hne. destruct s1 as [|c s1']; [contradiction|].
  assert (Hc : is_digit c = true) by (simpl in Hs; apply andb_prop in Hs; tauto).
  unfold parse_double_text. rewrite (read_sign_signed neg (String c s1') Hc).
  rewrite (span_digits_all _ Hs). simpl. rewrite string_app_nil_r. reflexivity.
Qed.

(** A sign, digits, a point and digits read back as a decimal. *)
Lemma parse_double_text_fraction (neg : bool) (s1 s2 : string) :
  all_digits s1 = true -> s1 <> EmptyString -> all_digits s2 = true ->
  parse_double_text (Z_sign_text neg ++ s1 ++ "." ++ s2)
  = to_double (mkDbl (sgn neg (Z.of_N (digits_value (s1 ++ s2)))) (- Z.of_nat (String.length s2))).
Proof.
  intros Hs1 Hne Hs2. destruct s1 as [|c s1']; [contradiction|].
  assert (Hc : is_digit c = true) by (simpl in Hs1; apply andb_prop in Hs1; tauto).
  unfold parse_double_text.
  rewrite (read_sign_signed neg (String c s1' ++ "." ++ s2) Hc).
  rewrite (span_digits_app (String c s1') ("." ++ s2) Hs1 eq_refl).
  change ("." ++ s2) with (String "." s2).
  cbn -[span_digits digits_value String.length append to_double].
  rewrite (span_digits_all _ Hs2). reflexivity.
Qed.

(** *** Rounding to [double] *)

Lemma dbl_eqb_eqv (a b : Dbl) : dbl_eqb a b = true <-> dbl_eqv a b.
Proof. unfold dbl_eqb, dbl_eqv. apply Z.eqb_eq. Qed.

Lemma bin_exp_one (a : Z) : (0 < a)%Z -> bin_exp a 1 = Z.log2 a.
Proof.
  intro Ha. unfold bin_exp. rewrite Z.log2_1, Z.sub_0_r, Z.mul_1_l.
  destruct (Z.log2_spec a Ha) as [H1 _].
  rewrite (proj2 (Z.leb_le 0 _) (Z.log2_nonneg a)).
  destruct (Z.ltb_spec a (2 ^ Z.log2 a)); lia.
Qed.

Lemma round_div_exact (a E : Z) : (E <= 0)%Z -> round_div a 1 E = (a * 2 ^ (- E))%Z.
Proof.
  intro HE. unfold round_div. destruct (Z.leb_spec 0 E) as [H0|H0].
  - assert (E = 0%Z) by lia. subst E. cbn -[Z.div Z.modulo].
    rewrite Z.div_1_r, Z.mod_1_r, Z.mul_1_r. reflexivity.
  - rewrite Z.div_1_r, Z.mod_1_r. reflexivity.
Qed.

Lemma pow10_split (k : Z) : (0 <= k)%Z -> (10 ^ k = 2 ^ k * 5 ^ k)%Z.
Proof. intro Hk. rewrite <- Z.pow_mul_l. reflexivity. Qed.

(** Integers below [2^53] in magnitude are [double]s. *)
Lemma is_binary64_int (z : Z) : (Z.abs z < 2 ^ 53)%Z -> is_binary64 (mkDbl z 0) = true.
Proof.
  intro Hz. unfold is_binary64, dbl_round. cbn [dexp dmant].
  change (0 <=? 0)%Z with true. cbn iota beta zeta.
  rewrite Z.pow_0_r, Z.mul_1_r.
  destruct (Z.eqb_spec (Z.abs z) 0) as [H0|H0].
  - assert (z = 0%Z) by lia. subst z. reflexivity.
  - assert (Ha : (0 < Z.abs z)%Z) by lia.
    rewrite (bin_exp_one _ Ha).
    assert (Hl : (Z.log2 (Z.abs z) < 53)%Z) by (apply Z.log2_lt_pow2; lia).
    pose proof (Z.log2_nonneg (Z.abs z)) as Hl0.
    rewrite Z.max_l by lia.
    rewrite round_div_exact by lia.
    assert (Hsg : ((if (z <? 0)%Z then (-1)%Z else 1%Z) * Z.abs z = z)%Z)
      by (destruct (Z.ltb_spec z 0); lia).
    destruct (Z.leb_spec 0 (Z.log2 (Z.abs z) - 52)) as [HE|HE].
    + replace (Z.log2 (Z.abs z) - 52)%Z with 0%Z by lia.
      rewrite Z.opp_0, Z.pow_0_r, !Z.mul_1_r, Z.min_l by (unfold dbl_max; lia).
      rewrite Hsg. apply dbl_eqb_eqv. unfold dbl_eqv. reflexivity.
    + apply dbl_eqb_eqv. unfold dbl_eqv. cbn [dexp dmant].
      set (E := (Z.log2 (Z.abs z) - 52)%Z) in *.
      rewrite Z.min_l by lia. rewrite Z.sub_diag, Z.pow_0_r, Z.mul_1_r.
      replace (0 - E)%Z with (- E)%Z by ring. rewrite (pow10_split (- E)) by lia.
      set (sg := if (z <? 0)%Z then (-1)%Z else 1%Z) in *.
      transitivity (sg * Z.abs z * (2 ^ (- E) * 5 ^ (- E)))%Z; [ring | rewrite Hsg; reflexivity].
Qed.

Lemma to_double_int (z : Z) : (Z.abs z < 2 ^ 53)%Z -> to_double (mkDbl z 0) = mkDbl z 0.
Proof. intro Hz. unfold to_double. rewrite (is_binary64_int z Hz). reflexivity. Qed.

(** Integers of [2^1024] or more in magnitude round to infinity, stored
    as [DBL_MAX] with their sign. *)
Lemma to_double_big_int (z : Z) :
  (2 ^ 1024 <= Z.abs z)%Z ->
  to_double (mkDbl z 0) = mkDbl ((if (z <? 0)%Z then (-1)%Z else 1%Z) * dbl_max) 0.
Proof.
  intro Hz.
  assert (Hmax : (dbl_max < 2 ^ 1024)%Z) by (unfold dbl_max; lia).
  assert (Hr : dbl_round (mkDbl z 0) = mkDbl ((if (z <? 0)%Z then (-1)%Z else 1%Z) * dbl_max) 0).
  { unfold dbl_round. cbn [dexp dmant].
    change (0 <=? 0)%Z with true. cbn iota beta zeta.
    rewrite Z.pow_0_r, Z.mul_1_r.
    assert (Ha : (0 < Z.abs z)%Z) by lia.
    rewrite (proj2 (Z.eqb_neq (Z.abs z) 0)) by lia.
    rewrite (bin_exp_one _ Ha).
    assert (Hl : (1024 <= Z.log2 (Z.abs z))%Z).
    { rewrite <- (Z.log2_pow2 1024) by lia. apply Z.log2_le_mono. exact Hz. }
    destruct (Z.log2_spec _ Ha) as [Hlo _].
    set (E := (Z.log2 (Z.abs z) - 52)%Z).
    rewrite Z.max_l by (unfold E; lia).
    rewrite (proj2 (Z.leb_le 0 E)) by (unfold E; lia).
    assert (HM : (2 ^ 52 <= round_div (Z.abs z) 1 E)%Z).
    { unfold round_div. rewrite (proj2 (Z.leb_le 0 E)) by (unfold E; lia).
      rewrite Z.mul_1_l.
      assert (Hq : (2 ^ 52 <= Z.abs z / 2 ^ E)%Z).
      { apply Z.div_le_lower_bound; [apply Z.pow_pos_nonneg; unfold E; lia|].
        rewrite <- Z.pow_add_r by (unfold E; lia).
        replace (E + 52)%Z with (Z.log2 (Z.abs z)) by (unfold E; lia). exact Hlo. }
      destruct (_ || _); lia. }
    rewrite Z.min_r; [reflexivity|].
    assert (H2E : (2 ^ 52 * 2 ^ E <= round_div (Z.abs z) 1 E * 2 ^ E)%Z).
    { apply Z.mul_le_mono_nonneg_r; [apply Z.pow_nonneg; lia | exact HM]. }
    rewrite <- Z.pow_add_r in H2E by (unfold E; lia).
    assert (H1024 : (2 ^ 1024 <= 2 ^ (52 + E))%Z) by (apply Z.pow_le_mono_r; unfold E; lia).
    lia. }
  unfold to_double, is_binary64. rewrite Hr.
  replace (dbl_eqb _ (mkDbl z 0)) with false; [reflexivity|].
  symmetry. unfold dbl_eqb. cbn [dexp dmant]. apply Z.eqb_neq.
  rewrite Z.min_id, Z.sub_diag, Z.pow_0_r, !Z.mul_1_r.
  destruct (Z.ltb_spec z 0); intro; subst z; unfold dbl_max in *; lia.
Qed.

Lemma to_double_binary64 (d : Dbl) : is_binary64 d = true -> to_double d = d.
Proof. intro H. unfold to_double. rewrite H. reflexivity. Qed.

Lemma dbl_round_exp_nonpos (d : Dbl) : (dexp (dbl_round d) <= 0)%Z.
Proof.
  unfold dbl_round.
  destruct (if (0 <=? dexp d)%Z then _ else _) as [n k].
  destruct (Z.abs n =? 0)%Z; [cbn; lia|].
  destruct (Z.leb_spec 0 (Z.max (bin_exp (Z.abs n) (10 ^ k) - 52) (-1074))); cbn; lia.
Qed.

(** A [double] written with a non-negative exponent is still a [double]
    once the exponent is multiplied out. *)
Lemma is_binary64_norm (m e : Z) :
  (0 <= e)%Z -> is_binary64 (mkDbl m e) = true -> is_binary64 (mkDbl (m * 10 ^ e) 0) = true.
Proof.
  intros He H.
  assert (Hr : dbl_round (mkDbl (m * 10 ^ e) 0) = dbl_round (mkDbl m e)).
  { unfold dbl_round. cbn [dexp dmant].
    change (0 <=? 0)%Z with true. rewrite (proj2 (Z.leb_le 0 e) He).
    rewrite Z.pow_0_r, Z.mul_1_r. reflexivity. }
  unfold is_binary64 in *. rewrite Hr.
  pose proof (dbl_round_exp_nonpos (mkDbl m e)) as Hn.
  destruct (dbl_round (mkDbl m e)) as [rm re]. cbn [dexp] in Hn.
  unfold dbl_eqb in *. cbn [dexp dmant] in *.
  rewrite Z.min_l in H by lia. rewrite Z.min_l by lia.
  rewrite Z.sub_diag in *. rewrite Z.sub_0_l.
  replace (e - re)%Z with (e + - re)%Z in H by ring.
  rewrite Z.pow_add_r in H by lia. rewrite <- Z.mul_assoc. exact H.
Qed.

(** [static_cast<int>] stays in [int]'s range, and is the identity there. *)
Lemma dbl_trunc_range (d : Dbl) : (INT_MIN <= dbl_trunc d <= INT_MAX)%Z.
Proof.
  unfold dbl_trunc.
  destruct (Z.leb_spec INT_MIN (dbl_trunc_Z d)), (Z.leb_spec (dbl_trunc_Z d) INT_MAX);
    cbn; unfold INT_MIN, INT_MAX in *; lia.
Qed.

Lemma dbl_trunc_int (t : Z) : (INT_MIN <= t <= INT_MAX)%Z -> dbl_trunc (mkDbl t 0) = t.
Proof.
  intro Ht. unfold dbl_trunc, dbl_trunc_Z. cbn [dexp dmant].
  change (0 <=? 0)%Z with true. cbn iota. rewrite Z.pow_0_r, Z.mul_1_r.
  rewrite (proj2 (Z.leb_le _ _) (proj1 Ht)), (proj2 (Z.leb_le _ _) (proj2 Ht)). reflexivity.
Qed.

Lemma parse_to_string_Z_literal (z : Z) : parse_double_text (to_string_Z z) = to_double (mkDbl z 0).
Proof.
  unfold to_string_Z.
  rewrite (parse_double_text_integer _ _ (digits_of_N_all_digits _) (digits_of_N_nonempty _)).
  rewrite digits_of_N_value, N2Z.inj_abs_N. unfold sgn.
  destruct (Z.ltb_spec z 0); do 2 f_equal; lia.
Qed.

Lemma parse_to_string_Z (z : Z) :
  (Z.abs z < 2 ^ 53)%Z -> parse_double_text (to_string_Z z) = mkDbl z 0.
Proof. intro Hz. rewrite parse_to_string_Z_literal. apply to_double_int. exact Hz. Qed.

Lemma parse_to_string_double (d : Dbl) :
  is_binary64 d = true ->
  parse_double_text (to_string_double d)
  = if (0 <=? dexp d)%Z then mkDbl (dmant d * 10 ^ dexp d) 0 else d.
Proof.
  intro Hb. unfold to_string_double. destruct (Z.leb_spec 0 (dexp d)) as [He|He].
  - rewrite parse_to_string_Z_literal. apply to_double_binary64.
    destruct d as [m e]. apply is_binary64_norm; assumption.
  - rewrite (parse_double_text_fraction _ _ _ (digits_of_N_all_digits _)
               (digits_of_N_nonempty _) (fixed_digits_all_digits _ _)).
    transitivity (to_double d); [f_equal | exact (to_double_binary64 d Hb)].
    rewrite fixed_digits_length.
    unfold digits_value. rewrite digits_value_acc_app.
    fold (digits_value (digits_of_N (Z.abs_N (dmant d) / 10 ^ N.of_nat (Z.to_nat (- dexp d))))).
    rewrite digits_of_N_value, fixed_digits_value, N.Div0.mod_mod.
    rewrite N.mul_comm, <- N.div_mod', N2Z.inj_abs_N, Z2Nat.id by lia.
    destruct d as [m e]; simpl in *. unfold sgn.
    destruct (Z.ltb_spec m 0); f_equal; lia.
Qed.

Lemma signed_digits_numeric (neg : bool) (s : string) :
  all_digits s = true -> all_numeric (Z_sign_text neg ++ s) = true.
Proof. intro H. destruct neg; simpl; apply all_digits_numeric; exact H. Qed.

Lemma to_string_Z_shape (z : Z) :
  all_numeric (to_string_Z z) = true /\ num_start (to_string_Z z) = true.
Proof.
  unfold to_string_Z. split; [apply signed_digits_numeric, digits_of_N_all_digits|].
  pose proof (digits_of_N_all_digits (Z.abs_N z)) as Hd.
  pose proof (digits_of_N_nonempty (Z.abs_N z)) as Hne.
  destruct (digits_of_N (Z.abs_N z)) as [|c s]; [contradiction|].
  destruct (z <? 0)%Z; simpl; [reflexivity|].
  simpl in Hd. apply andb_prop in Hd as [Hc _]. rewrite Hc, orb_true_r. reflexivity.
Qed.

Lemma to_string_double_shape (d : Dbl) :
  all_numeric (to_string_double d) = true /\ num_start (to_string_double d) = true.
Proof.
  unfold to_string_double. destruct (0 <=? dexp d)%Z; [apply to_string_Z_shape|].
  pose proof (digits_of_N_all_digits (Z.abs_N (dmant d) / 10 ^ N.of_nat (Z.to_nat (- dexp d)))) as Hd.
  pose proof (digits_of_N_nonempty (Z.abs_N (dmant d) / 10 ^ N.of_nat (Z.to_nat (- dexp d)))) as Hne.
  pose proof (fixed_digits_all_digits (Z.to_nat (- dexp d))
                (Z.abs_N (dmant d) mod 10 ^ N.of_nat (Z.to_nat (- dexp d)))) as Hf.
  destruct (digits_of_N _) as [|c s]; [contradiction|].
  split.
  - assert (H : all_numeric (String c s ++ "." ++
              fixed_digits (Z.to_nat (- dexp d))
                (Z.abs_N (dmant d) mod 10 ^ N.of_nat (Z.to_nat (- dexp d)))) = true).
    { rewrite all_numeric_app, (all_digits_numeric _ Hd). simpl.
      apply all_digits_numeric; exact Hf. }
    destruct (dmant d <? 0)%Z; simpl in *; [exact H | exact H].
  - simpl in Hd. apply andb_prop in Hd as [Hc _].
    destruct (dmant d <? 0)%Z; simpl; [reflexivity|]. rewrite Hc, orb_true_r. reflexivity.
Qed.

(** ** Round trip: the tokenizer on written text *)

Lemma getJsonNumber_app (s r : string) :
  all_numeric s = true -> num_free_head r = true -> getJsonNumber (s ++ r) = (s, r).
Proof.
  intros Hs Hr. induction s as [|c s IH]; simpl.
  - destruct r as [|c r]; [reflexivity|]. simpl in Hr. apply negb_true_iff in Hr.
    simpl. rewrite Hr. reflexivity.
  - simpl in Hs. apply andb_prop in Hs as [Hc Hs]. rewrite Hc, (IH Hs). reflexivity.
Qed.

Lemma scan_token_number_char (c : ascii) (r : string) :
  (Ascii.eqb c "-" || is_digit c) = true ->
  scan_token (String c r)
  = let '(v, r') := getJsonNumber (String c r) in Some (SOk (mkJsonToken JsonTokenNumber v) r').
Proof. destruct c as [[] [] [] [] [] [] [] []]; intro H; try discriminate H; reflexivity. Qed.

Lemma number_start_not_white (c : ascii) :
  (Ascii.eqb c "-" || is_digit c) = true -> isWhiteSpace c = false.
Proof. destruct c as [[] [] [] [] [] [] [] []]; intro H; try discriminate H; reflexivity. Qed.

Lemma eatWhitespace_app (w s : string) :
  all_white w = true -> eatWhitespace (w ++ s) = eatWhitespace s.
Proof.
  induction w as [|c w IH]; simpl; [reflexivity|].
  intro H. apply andb_prop in H as [Hc Hw]. rewrite Hc. exact (IH Hw).
Qed.

Lemma all_white_app (w1 w2 : string) :
  all_white (w1 ++ w2) = all_white w1 && all_white w2.
Proof. induction w1 as [|c w1 IH]; simpl; [reflexivity|]. rewrite IH, andb_assoc. reflexivity. Qed.

Lemma all_white_tabs (n : nat) : all_white (tabs n) = true.
Proof. induction n as [|n IH]; simpl; [reflexivity|]. exact IH. Qed.

(** Whitespace in front of a token is skipped without spending fuel. *)
Lemma scan_loop_white (n : nat) (w s : string) (acc : list JsonToken) :
  all_white w = true -> eatWhitespace s <> EmptyString ->
  scan_loop n (w ++ s) acc = scan_loop n s acc.
Proof.
  intros Hw Hs. destruct w as [|c w]; [reflexivity|].
  destruct s as [|c' s']; [contradiction|].
  destruct n as [|n]; [reflexivity|].
  change (scan_loop (S n) (String c w ++ String c' s') acc = scan_loop (S n) (String c' s') acc).
  cbn [scan_loop]. rewrite (eatWhitespace_app (String c w) _ Hw). reflexivity.
Qed.

Lemma eatWhitespace_nonwhite (c : ascii) (r : string) :
  isWhiteSpace c = false -> eatWhitespace (String c r) = String c r.
Proof. intro H. simpl. rewrite H. reflexivity. Qed.

(** One token read at the head of the text. *)
Lemma scan_loop_token (n : nat) (c : ascii) (r : string) (acc : list JsonToken)
  (t : JsonToken) (rest : string) :
  isWhiteSpace c = false -> scan_token (String c r) = Some (SOk t rest) ->
  scan_loop (S n) (String c r) acc = scan_loop n rest (app acc [t]).
Proof. intros Hc Ht. cbn [scan_loop]. rewrite (eatWhitespace_nonwhite _ _ Hc), Ht. reflexivity. Qed.

Lemma scan_loop_number (n : nat) (s rest : string) (acc : list JsonToken) :
  all_numeric s = true -> num_start s = true -> num_free_head rest = true ->
  scan_loop (S n) (s ++ rest) acc = scan_loop n rest (app acc [tok JsonTokenNumber s]).
Proof.
  intros Hs Hst Hr. destruct s as [|c s']; [discriminate|].
  simpl in Hst. cbn [append].
  apply scan_loop_token; [exact (number_start_not_white _ Hst)|].
  rewrite (scan_token_number_char _ _ Hst).
  change (String c (s' ++ rest)) with (String c s' ++ rest).
  rewrite (getJsonNumber_app _ _ Hs Hr). reflexivity.
Qed.

Lemma plain_char_escape (c : ascii) : plain_char c = true -> escape_char c = str1 c.
Proof. destruct c as [[] [] [] [] [] [] [] []]; intro H; try discriminate H; reflexivity. Qed.

Lemma plain_char_not_quote (c : ascii) :
  plain_char c = true -> Ascii.eqb c ch_dq = false /\ Ascii.eqb c ch_bs = false.
Proof. destruct c as [[] [] [] [] [] [] [] []]; intro H; try discriminate H; split; reflexivity. Qed.

Lemma escape_plain (s : string) : plain_string s = true -> escape_json_string s = s.
Proof.
  induction s as [|c s IH]; simpl; [reflexivity|].
  intro H. apply andb_prop in H as [Hc Hs]. rewrite (plain_char_escape _ Hc), (IH Hs). reflexivity.
Qed.

Lemma getJsonString_loop_plain (s r acc : string) :
  plain_string s = true -> getJsonString_loop (s ++ String ch_dq r) acc = SOk (acc ++ s) r.
Proof.
  revert acc. induction s as [|c s IH]; intros acc H; simpl.
  - rewrite string_app_nil_r. reflexivity.
  - apply andb_prop in H as [Hc Hs]. destruct (plain_char_not_quote _ Hc) as [H1 H2].
    rewrite H1, H2, (IH _ Hs), string_app_assoc. reflexivity.
Qed.

Lemma scan_token_string (s rest : string) :
  plain_string s = true ->
  scan_token (write_string s ++ rest) = Some (SOk (tok JsonTokenString s) rest).
Proof.
  intro H. unfold write_string. rewrite (escape_plain _ H).
  rewrite !string_app_assoc. cbn [str1 append].
  unfold scan_token. cbn [Ascii.eqb ch_dq].
  change (getJsonString (String ch_dq (s ++ String ch_dq rest)))
    with (getJsonString_loop (s ++ String ch_dq rest) EmptyString).
  rewrite (getJsonString_loop_plain _ _ _ H). reflexivity.
Qed.

(** *** C9: string escapes *)

Lemma getJsonString_loop_unclosed :
  forall n s acc, String.length s < n -> has_closing_quote s = false ->
    getJsonString_loop s acc = SThrow ("Expected: " ++ q ++ " ") \/
    exists e, getJsonString_loop s acc =
              SThrow ("Unrecognized escape sequence: " ++ str1 ch_bs ++ str1 e).
Proof.
  induction n as [|n IH]; intros s acc Hlen Hq; [lia|].
  destruct s as [|c s']; [left; reflexivity|].
  cbn [has_closing_quote] in Hq. cbn [getJsonString_loop]. cbn [String.length] in Hlen.
  destruct (Ascii.eqb c ch_dq); [discriminate|].
  destruct (Ascii.eqb c ch_bs).
  - destruct s' as [|e s''].
    + apply IH; [cbn; lia | reflexivity].
    + destruct (unescape e); [|right; exists e; reflexivity].
      apply IH; [cbn in Hlen; lia | exact Hq].
  - apply IH; [lia | exact Hq].
Qed.

Lemma escape_char_read (c : ascii) (r acc : string) :
  json_char c = true ->
  getJsonString_loop (escape_char c ++ r) acc = getJsonString_loop r (acc ++ str1 c).
Proof. destruct c as [[] [] [] [] [] [] [] []]; intro H; try discriminate H; reflexivity. Qed.

Lemma escape_char_no_control (c : ascii) :
  forallb (fun x => 32 <=? N_of_ascii x)%N (list_ascii_of_string (escape_char c)) = true.
Proof. destruct c as [[] [] [] [] [] [] [] []]; reflexivity. Qed.

Lemma list_ascii_of_string_app (s1 s2 : string) :
  list_ascii_of_string (s1 ++ s2) = app (list_ascii_of_string s1) (list_ascii_of_string s2).
Proof. induction s1 as [|c s1 IH]; cbn; [reflexivity | rewrite IH; reflexivity]. Qed.

Lemma getJsonString_loop_escaped (s r acc : string) :
  json_string s = true ->
  getJsonString_loop (escape_json_string s ++ String ch_dq r) acc = SOk (acc ++ s) r.
Proof.
  revert acc. induction s as [|c s IH]; intros acc H; cbn [escape_json_string].
  - cbn. rewrite string_app_nil_r. reflexivity.
  - cbn [json_string] in H. apply andb_prop in H as [Hc Hs].
    rewrite string_app_assoc, (escape_char_read _ _ _ Hc), (IH _ Hs), string_app_assoc.
    reflexivity.
Qed.

(** C9: the escapes of [getJsonString] and of the writer.  A backslash
    followed by a slash, a quote, a backslash or one of [b f n r t] adds the character it stands
    for, a backslash followed by anything else throws "Unrecognized escape
    sequence", and a text with no closing quote (a quote that is not the
    character after a backslash) throws: the message Expected, then a
    quote, or an unrecognized escape met first.  The writer escapes every quote,
    backslash and control character of a string (each is written after a
    backslash): its output holds no control character, and a string whose control characters are among
    backspace, form feed, newline, carriage return and tab is read back
    unchanged.  The text a, backslash, n, b, backslash, quote, c, between
    quotes, reads as the string [a], newline,
    [b], quote, [c], which the writer writes back as the same text. *)
Theorem C9_string_escapes :
  (forall e, unescape e <> None <->
     In e ["/"; ch_dq; ch_bs; "b"; "f"; "n"; "r"; "t"]%char) /\
  map unescape ["/"; ch_dq; ch_bs; "b"; "f"; "n"; "r"; "t"]%char =
    map Some ["/"; ch_dq; ch_bs; ch_bsp; ch_ff; ch_nl; ch_cr; ch_tab]%char /\
  (forall e u r acc, unescape e = Some u ->
     getJsonString_loop (String ch_bs (String e r)) acc = getJsonString_loop r (acc ++ str1 u)) /\
  (forall e r acc, unescape e = None ->
     getJsonString_loop (String ch_bs (String e r)) acc =
       SThrow ("Unrecognized escape sequence: " ++ str1 ch_bs ++ str1 e)) /\
  (forall s, has_closing_quote s = false ->
     getJsonString (String ch_dq s) = SThrow ("Expected: " ++ q ++ " ") \/
     exists e, getJsonString (String ch_dq s) =
               SThrow ("Unrecognized escape sequence: " ++ str1 ch_bs ++ str1 e)) /\
  (forall s, serialize (JsonValue_of_string s) = q ++ escape_json_string s ++ q /\
     forallb (fun x => 32 <=? N_of_ascii x)%N
       (list_ascii_of_string (escape_json_string s)) = true) /\
  (forall c, (Ascii.eqb c ch_dq || Ascii.eqb c ch_bs || (N_of_ascii c <? 32)%N) = true ->
     exists t, escape_char c = String ch_bs t) /\
  (forall s v, json_string s = true ->
     read (serialize (JsonValue_of_string s)) v = ReadOk (setType VString (setString s v))) /\
  read (q ++ "a" ++ str1 ch_bs ++ "nb" ++ str1 ch_bs ++ q ++ "c" ++ q) JsonValue_default =
    ReadOk (setType VString (setString ("a" ++ nl ++ "b" ++ q ++ "c") JsonValue_default)) /\
  serialize (JsonValue_of_string ("a" ++ nl ++ "b" ++ q ++ "c")) =
    q ++ "a" ++ str1 ch_bs ++ "nb" ++ str1 ch_bs ++ q ++ "c" ++ q.
Proof.
  split; [|split; [reflexivity|split; [|split; [|split; [|split; [|split; [|split; [|split]]]]]]]].
  - intros e. split.
    + intros H. unfold unescape in H.
      destruct (Ascii.eqb_spec e "/"); [subst; simpl; tauto|].
      destruct (Ascii.eqb_spec e ch_dq); [subst; simpl; tauto|].
      destruct (Ascii.eqb_spec e ch_bs); [subst; simpl; tauto|].
      destruct (Ascii.eqb_spec e "b"); [subst; simpl; tauto|].
      destruct (Ascii.eqb_spec e "f"); [subst; simpl; tauto|].
      destruct (Ascii.eqb_spec e "n"); [subst; simpl; tauto|].
      destruct (Ascii.eqb_spec e "r"); [subst; simpl; tauto|].
      destruct (Ascii.eqb_spec e "t"); [subst; simpl; tauto|].
      simpl in H. congruence.
    + intros H. simpl in H.
      repeat (destruct H as [<-|H]; [discriminate|]). destruct H.
  - intros e u r acc H. simpl. rewrite H. reflexivity.
  - intros e r acc H. simpl. rewrite H. reflexivity.
  - intros s Hs. cbn [getJsonString].
    apply (getJsonString_loop_unclosed (S (String.length s))); [lia | exact Hs].
  - intros s. split; [reflexivity|].
    induction s as [|c s IH]; [reflexivity|]. cbn [escape_json_string].
    rewrite list_ascii_of_string_app, forallb_app, escape_char_no_control, IH. reflexivity.
  - intros c. destruct c as [[] [] [] [] [] [] [] []]; intro H;
      first [discriminate H | eexists; reflexivity].
  - intros s v Hs. unfold read, scan. cbn [serialize write_value JsonValue_of_string].
    unfold write_string. cbn [str1 append].
    assert (Ht : scan_token (String ch_dq (escape_json_string s ++ String ch_dq EmptyString))
                 = Some (SOk (tok JsonTokenString s) EmptyString)).
    { unfold scan_token. cbn [Ascii.eqb ch_dq].
      change (getJsonString (String ch_dq (escape_json_string s ++ String ch_dq EmptyString)))
        with (getJsonString_loop (escape_json_string s ++ String ch_dq EmptyString) EmptyString).
      rewrite (getJsonString_loop_escaped _ _ _ Hs). reflexivity. }
    cbn [String.length].
    rewrite (scan_loop_token _ _ _ _ _ _ (eq_refl : isWhiteSpace ch_dq = false) Ht).
    match goal with |- context [scan_loop ?n EmptyString] => destruct n end; reflexivity.
  - vm_compute. reflexivity.
  - vm_compute. reflexivity.
Qed.

Lemma C9_witness :
  json_string ("a" ++ nl ++ "b" ++ q ++ "c") = true /\
  read (serialize (JsonValue_of_string ("a" ++ nl ++ "b" ++ q ++ "c"))) JsonValue_default
  = ReadOk (setType VString (setString ("a" ++ nl ++ "b" ++ q ++ "c") JsonValue_default)) /\
  has_closing_quote ("a" ++ str1 ch_bs ++ q ++ "b") = false /\
  (getJsonString (String ch_dq ("a" ++ str1 ch_bs ++ q ++ "b")) = SThrow ("Expected: " ++ q ++ " ") \/
   exists e, getJsonString (String ch_dq ("a" ++ str1 ch_bs ++ q ++ "b")) =
             SThrow ("Unrecognized escape sequence: " ++ str1 ch_bs ++ str1 e)).
Proof.
  split; [reflexivity|]. split.
  - exact (proj1 (proj2 (proj2 (proj2 (proj2 (proj2 (proj2 (proj2 C9_string_escapes)))))))
             ("a" ++ nl ++ "b" ++ q ++ "c") JsonValue_default eq_refl).
  - split; [reflexivity|].
    exact (proj1 (proj2 (proj2 (proj2 (proj2 C9_string_escapes))))
             ("a" ++ str1 ch_bs ++ q ++ "b") eq_refl).
Defined.

(** Induction over a tree, with the hypothesis on every member and element. *)
Lemma JsonValue_nested_ind (P : JsonValue -> Prop)
  (H : forall d i u b s obj arr ty,
       Forall (fun p => P (snd p)) obj -> Forall P arr ->
       P (mkJsonValue d i u b s obj arr ty)) :
  forall v, P v.
Proof.
  refine (fix F (v : JsonValue) : P v :=
    match v with
    | mkJsonValue d i u b s obj arr ty =>
        H d i u b s obj arr ty
          ((fix Fo (l : list (string * JsonValue)) : Forall (fun p => P (snd p)) l :=
              match l as l0 return Forall (fun p => P (snd p)) l0 with
              | [] => Forall_nil _
              | p :: l' =>
                  match p as p0 return Forall (fun p => P (snd p)) (p0 :: l') with
                  | (k, x) => Forall_cons (k, x) (F x) (Fo l')
                  end
              end) obj)
          ((fix Fa (l : list JsonValue) : Forall P l :=
              match l as l0 return Forall P l0 with
              | [] => Forall_nil _
              | x :: l' => Forall_cons x (F x) (Fa l')
              end) arr)
    end).
Qed.

Lemma write_value_head (d : nat) (v : JsonValue) :
  exists c r, write_value d v = String c r /\ isWhiteSpace c = false.
Proof.
  destruct v as [dd i u b s obj arr ty]; destruct ty; cbn [write_value];
    try (eexists _, _; split; [reflexivity | reflexivity]).
  - destruct b; eexists _, _; split; reflexivity.
  - destruct (to_string_Z_shape (dbl_trunc dd)) as [_ Hs].
    destruct (to_string_Z (dbl_trunc dd)) as [|c r]; [discriminate|].
    exists c, r. split; [reflexivity | exact (number_start_not_white _ Hs)].
  - destruct (to_string_Z_shape i) as [_ Hs].
    destruct (to_string_Z i) as [|c r]; [discriminate|].
    exists c, r. split; [reflexivity | exact (number_start_not_white _ Hs)].
  - destruct (to_string_Z_shape u) as [_ Hs].
    destruct (to_string_Z u) as [|c r]; [discriminate|].
    exists c, r. split; [reflexivity | exact (number_start_not_white _ Hs)].
  - destruct (to_string_double_shape dd) as [_ Hs].
    destruct (to_string_double dd) as [|c r]; [discriminate|].
    exists c, r. split; [reflexivity | exact (number_start_not_white _ Hs)].
Qed.

Lemma eatWhitespace_write_value (d : nat) (v : JsonValue) (rest : string) :
  eatWhitespace (write_value d v ++ rest) <> EmptyString.
Proof.
  destruct (write_value_head d v) as (c & r & Hw & Hc). rewrite Hw.
  cbn [append]. rewrite (eatWhitespace_nonwhite _ _ Hc). discriminate.
Qed.

Lemma scan_loop_string (n : nat) (k rest : string) (acc : list JsonToken) :
  plain_string k = true ->
  scan_loop (S n) (write_string k ++ rest) acc
  = scan_loop n rest (app acc [tok JsonTokenString k]).
Proof.
  intro H. pose proof (scan_token_string k rest H) as Ht.
  unfold write_string in Ht |- *. cbn [str1 append] in Ht |- *.
  apply scan_loop_token; [reflexivity | exact Ht].
Qed.

Lemma eatWhitespace_write_string (k rest : string) :
  eatWhitespace (write_string k ++ rest) <> EmptyString.
Proof. unfold write_string. cbn [str1 append]. simpl. discriminate. Qed.

Ltac fuel_to e :=
  match goal with
  | |- scan_loop ?f _ _ = _ =>
      replace f with e by (cbn [List.length]; rewrite ?length_app; cbn [List.length]; lia)
  end.

(** The members of an object, given the statement for each member's value. *)
Lemma scan_members (d : nat) (obj : JsonObject) :
  Forall (fun p => forall depth rest acc n,
            rt_ready (snd p) = true -> num_free_head rest = true ->
            scan_loop (List.length (toks_of (snd p)) + n) (write_value depth (snd p) ++ rest) acc
            = scan_loop n rest (app acc (toks_of (snd p)))) obj ->
  members_ready rt_ready obj = true ->
  forall w s acc n, all_white w = true -> eatWhitespace s <> EmptyString ->
  scan_loop (List.length (members_toks toks_of obj) + n)
    (w ++ write_members write_value d obj ++ s) acc
  = scan_loop n s (app acc (members_toks toks_of obj)).
Proof.
  intro HF. induction HF as [|[k x] l Hx HF IH]; intros Hr w s acc n Hw Hs.
  - cbn. rewrite app_nil_r. apply scan_loop_white; assumption.
  - cbn [members_ready] in Hr. apply andb_prop in Hr as [Hr Hl].
    apply andb_prop in Hr as [Hk Hxr]. cbn [snd] in Hx.
    cbn [write_members members_toks]. rewrite !string_app_assoc.
    rewrite <- (string_app_assoc w (tabs d)).
    rewrite scan_loop_white;
      [| rewrite all_white_app, Hw; apply all_white_tabs | apply eatWhitespace_write_string].
    fuel_to (S (S (List.length (toks_of x)
                  + (List.length (sep_tok l) + List.length (members_toks toks_of l) + n)))).
    rewrite (scan_loop_string _ _ _ _ Hk).
    change (" : " ++ ?X) with (" " ++ String ":" (" " ++ X)).
    rewrite scan_loop_white by (try reflexivity; simpl; discriminate).
    rewrite (scan_loop_token _ ":" _ _ (tok JsonTokenAssign ":") _ eq_refl eq_refl).
    rewrite scan_loop_white by (try reflexivity; apply eatWhitespace_write_value).
    rewrite Hx by (try exact Hxr; destruct l; reflexivity).
    destruct l as [|p l'].
    + cbn [sep_tok members_toks List.length append write_members].
      rewrite scan_loop_white by (try reflexivity; exact Hs).
      rewrite <- ?app_assoc, ?app_nil_r. reflexivity.
    + cbn [sep_tok List.length]. cbn [append].
      fuel_to (S (List.length (members_toks toks_of (p :: l')) + n)).
      rewrite (scan_loop_token _ "," _ _ (tok JsonTokenNext ",") _ eq_refl eq_refl).
      rewrite (IH Hl nl s _ n eq_refl Hs).
      rewrite <- !app_assoc. reflexivity.
Qed.

(** The elements of an array, given the statement for each element. *)
Lemma scan_elements (d : nat) (arr : JsonArray) :
  Forall (fun x => forall depth rest acc n,
            rt_ready x = true -> num_free_head rest = true ->
            scan_loop (List.length (toks_of x) + n) (write_value depth x ++ rest) acc
            = scan_loop n rest (app acc (toks_of x))) arr ->
  elements_ready rt_ready arr = true ->
  forall w s acc n, all_white w = true -> eatWhitespace s <> EmptyString ->
  scan_loop (List.length (elements_toks toks_of arr) + n)
    (w ++ write_elements write_value d arr ++ s) acc
  = scan_loop n s (app acc (elements_toks toks_of arr)).
Proof.
  intro HF. induction HF as [|x l Hx HF IH]; intros Hr w s acc n Hw Hs.
  - cbn. rewrite app_nil_r. apply scan_loop_white; assumption.
  - cbn [elements_ready] in Hr. apply andb_prop in Hr as [Hxr Hl].
    cbn [write_elements elements_toks]. rewrite !string_app_assoc.
    rewrite <- (string_app_assoc w (tabs d)).
    rewrite scan_loop_white;
      [| rewrite all_white_app, Hw; apply all_white_tabs | apply eatWhitespace_write_value].
    fuel_to (List.length (toks_of x)
             + (List.length (sep_tok l) + List.length (elements_toks toks_of l) + n)).
    rewrite Hx by (try exact Hxr; destruct l; reflexivity).
    destruct l as [|p l'].
    + cbn [sep_tok elements_toks List.length append write_elements].
      rewrite scan_loop_white by (try reflexivity; exact Hs).
      rewrite <- ?app_assoc, ?app_nil_r. reflexivity.
    + cbn [sep_tok List.length]. cbn [append].
      fuel_to (S (List.length (elements_toks toks_of (p :: l')) + n)).
      rewrite (scan_loop_token _ "," _ _ (tok JsonTokenNext ",") _ eq_refl eq_refl).
      rewrite (IH Hl nl s _ n eq_refl Hs).
      rewrite <- !app_assoc. reflexivity.
Qed.

(** A written tree is read back token by token: the tokenizer reads the
    text of [write_value d v] as [toks_of v], one unit of fuel per token. *)
Lemma scan_write_value (v : JsonValue) :
  forall depth rest acc n,
  rt_ready v = true -> num_free_head rest = true ->
  scan_loop (List.length (toks_of v) + n) (write_value depth v ++ rest) acc
  = scan_loop n rest (app acc (toks_of v)).
Proof.
  induction v as [dd i u b s obj arr ty Hobj Harr] using JsonValue_nested_ind.
  intros depth rest acc n Hr Hrest.
  destruct ty; cbn [rt_ready] in Hr; cbn [write_value toks_of List.length].
  - (* Empty *)
    apply scan_loop_token; reflexivity.
  - (* Boolean *)
    destruct b; apply scan_loop_token; reflexivity.
  - (* Int *)
    destruct (to_string_Z_shape (dbl_trunc dd)) as [H1 H2].
    apply scan_loop_number; assumption.
  - (* Int64 *)
    destruct (to_string_Z_shape i) as [H1 H2].
    apply scan_loop_number; assumption.
  - (* Uint64 *)
    destruct (to_string_Z_shape u) as [H1 H2].
    apply scan_loop_number; assumption.
  - (* Double *)
    destruct (to_string_double_shape dd) as [H1 H2].
    apply scan_loop_number; assumption.
  - (* String *)
    apply scan_loop_string; exact Hr.
  - (* Object *)
    destruct obj as [|p obj']; [discriminate|].
    apply andb_prop in Hr as [Hr Hm]. apply andb_prop in Hr as [_ Hsorted].
    rewrite !string_app_assoc. cbn [append].
    fuel_to (S (List.length (members_toks toks_of (p :: obj')) + (1 + n))).
    rewrite (scan_loop_token _ "{" _ _ (tok JsonTokenObjectStart "{") _ eq_refl eq_refl).
    rewrite (scan_members _ _ Hobj Hm nl _ _ _ eq_refl).
    2: { rewrite eatWhitespace_app by apply all_white_tabs. simpl. discriminate. }
    rewrite scan_loop_white by (try apply all_white_tabs; simpl; discriminate).
    cbn [append]. rewrite (scan_loop_token _ "}" _ _ (tok JsonTokenObjectEnd "}") _ eq_refl eq_refl).
    rewrite <- !app_assoc. reflexivity.
  - (* Array *)
    destruct arr as [|x arr']; [discriminate|].
    apply andb_prop in Hr as [_ Hm].
    rewrite !string_app_assoc. cbn [append].
    fuel_to (S (List.length (elements_toks toks_of (x :: arr')) + (1 + n))).
    rewrite (scan_loop_token _ "[" _ _ (tok JsonTokenArrayStart "[") _ eq_refl eq_refl).
    rewrite (scan_elements _ _ Harr Hm nl _ _ _ eq_refl).
    2: { rewrite eatWhitespace_app by apply all_white_tabs. simpl. discriminate. }
    rewrite scan_loop_white by (try apply all_white_tabs; simpl; discriminate).
    cbn [append]. rewrite (scan_loop_token _ "]" _ _ (tok JsonTokenArrayEnd "]") _ eq_refl eq_refl).
    rewrite <- !app_assoc. reflexivity.
Qed.

Lemma write_string_length (k : string) : (2 <= String.length (write_string k))%nat.
Proof. unfold write_string. rewrite !string_length_app. simpl. lia. Qed.

Lemma write_value_length (d : nat) (v : JsonValue) : (1 <= String.length (write_value d v))%nat.
Proof. destruct (write_value_head d v) as (c & r & -> & _). simpl. lia. Qed.

(** No more tokens than characters. *)
Lemma toks_of_length (v : JsonValue) :
  forall d, (List.length (toks_of v) <= String.length (write_value d v))%nat.
Proof.
  induction v as [dd i u b s obj arr ty Hobj Harr] using JsonValue_nested_ind.
  intro d. destruct ty; cbn [toks_of List.length];
    try (pose proof (write_value_length d (mkJsonValue dd i u b s obj arr VInt)); exact H);
    try (pose proof (write_value_length d (mkJsonValue dd i u b s obj arr VEmpty)); exact H);
    try (pose proof (write_value_length d (mkJsonValue dd i u b s obj arr VBoolean)); exact H);
    try (pose proof (write_value_length d (mkJsonValue dd i u b s obj arr VInt64)); exact H);
    try (pose proof (write_value_length d (mkJsonValue dd i u b s obj arr VUint64)); exact H);
    try (pose proof (write_value_length d (mkJsonValue dd i u b s obj arr VDouble)); exact H);
    try (pose proof (write_value_length d (mkJsonValue dd i u b s obj arr VString)); exact H).
  - cbn [write_value]. rewrite !string_length_app, length_app. cbn [List.length String.length].
    assert (Hm : (List.length (members_toks toks_of obj)
                  <= String.length (write_members write_value (S d) obj))%nat).
    { clear Harr. generalize (S d) as e. intro e.
      induction Hobj as [|[k x] l Hx Hl IH]; cbn [members_toks write_members]; [cbn; lia|].
      cbn [List.length]. rewrite !string_length_app, !length_app.
      cbn [List.length String.length snd] in *.
      specialize (Hx e). pose proof (write_string_length k).
      destruct l; cbn [List.length String.length sep_tok]; lia. }
    lia.
  - cbn [write_value]. rewrite !string_length_app, length_app. cbn [List.length String.length].
    assert (Hm : (List.length (elements_toks toks_of arr)
                  <= String.length (write_elements write_value (S d) arr))%nat).
    { clear Hobj. generalize (S d) as e. intro e.
      induction Harr as [|x l Hx Hl IH]; cbn [elements_toks write_elements]; [cbn; lia|].
      rewrite !string_length_app, !length_app. cbn [List.length String.length] in *.
      specialize (Hx e). pose proof (write_value_length e x).
      destruct l; cbn [List.length String.length sep_tok]; lia. }
    lia.
Qed.

Lemma scan_loop_empty (n : nat) (acc : list JsonToken) : scan_loop n EmptyString acc = ScanOk acc.
Proof. destruct n; reflexivity. Qed.

(** The tokenizer reads a serialized tree as [toks_of]. *)
Lemma scan_serialize (v : JsonValue) :
  rt_ready v = true -> scan (serialize v) = ScanOk (toks_of v).
Proof.
  intro Hr. unfold scan, serialize.
  pose proof (toks_of_length v 0) as Hl.
  pose proof (scan_write_value v 0 EmptyString []
                (S (String.length (write_value 0 v)) - List.length (toks_of v)) Hr eq_refl) as H.
  rewrite string_app_nil_r, scan_loop_empty in H.
  cbn [app] in H. rewrite <- H. f_equal. lia.
Qed.

(** ** Round trip: the parser on the tokens of a written tree *)

Lemma string_compare_refl (a : string) : String.compare a a = Eq.
Proof.
  pose proof (String.compare_antisym a a) as H.
  destruct (String.compare a a); simpl in H; congruence.
Qed.

Lemma str_lt_neq (a b : string) : str_lt a b = true -> String.eqb a b = false.
Proof.
  unfold str_lt. intro H. destruct (String.eqb_spec a b) as [->|]; [|reflexivity].
  rewrite string_compare_refl in H. discriminate.
Qed.

Lemma str_lt_gt (a b : string) : str_lt a b = true -> String.compare b a = Gt.
Proof.
  unfold str_lt. intro H. rewrite String.compare_antisym.
  destruct (String.compare a b); [discriminate | reflexivity | discriminate].
Qed.

Lemma obj_find_below (k : string) (acc : JsonObject) :
  (forall p, In p acc -> str_lt (fst p) k = true) -> obj_find k acc = false.
Proof.
  induction acc as [|[k' v'] acc IH]; intro H; [reflexivity|]. cbn [obj_find].
  assert (E : String.eqb k' k = false) by exact (str_lt_neq _ _ (H (k', v') (or_introl eq_refl))).
  rewrite E.
  apply IH. intros p Hp. apply H. right. exact Hp.
Qed.

Lemma obj_insert_above (k : string) (w : JsonValue) (acc : JsonObject) :
  (forall p, In p acc -> str_lt (fst p) k = true) -> obj_insert k w acc = app acc [(k, w)].
Proof.
  induction acc as [|[k' v'] acc IH]; intro H; [reflexivity|]. cbn [obj_insert].
  assert (E : String.compare k k' = Gt) by exact (str_lt_gt _ _ (H (k', v') (or_introl eq_refl))).
  rewrite E.
  rewrite IH; [reflexivity|]. intros p Hp. apply H. right. exact Hp.
Qed.

Lemma JsonTokenType_eqb_refl (ty : JsonTokenType) : JsonTokenType_eqb ty ty = true.
Proof. destruct ty; reflexivity. Qed.

(** [processToken] at a token of the type asked for, skipping it. *)
Lemma processToken_hit (ty : JsonTokenType) (mustMatch : bool) (t : JsonToken) (ts : list JsonToken) :
  getTokenType t = ty ->
  processToken ty true mustMatch (t :: ts) = TokOk (match ts with [] => false | _ => true end) ts.
Proof.
  intro H. unfold processToken. rewrite H, JsonTokenType_eqb_refl.
  destruct mustMatch; reflexivity.
Qed.

(** [processToken] at a token of another type, not required to match. *)
Lemma processToken_miss (ty : JsonTokenType) (t : JsonToken) (ts : list JsonToken) :
  JsonTokenType_eqb (getTokenType t) ty = false ->
  processToken ty true false (t :: ts) = TokOk false (t :: ts).
Proof. intro H. unfold processToken. rewrite H. reflexivity. Qed.

Lemma parse_close_hit {A} (ty : JsonTokenType) (a : A) (t : JsonToken) (ts : list JsonToken) :
  getTokenType t = ty -> parse_close ty a (t :: ts) = POk a ts.
Proof. intro H. unfold parse_close. rewrite (processToken_hit _ true _ _ H). reflexivity. Qed.

Lemma parse_members_toks (obj : JsonObject) :
  Forall (fun p => forall f rest, rt_ready (snd p) = true ->
            (2 * List.length (toks_of (snd p)) <= f)%nat ->
            exists w, parse_value f JsonValue_default (app (toks_of (snd p)) rest) = POk w rest
                      /\ rt_equiv (snd p) w) obj ->
  members_ready rt_ready obj = true -> keys_sorted obj = true ->
  forall acc f rest,
  (forall p, In p acc -> forallb (fun q => str_lt (fst p) (fst q)) obj = true) ->
  obj <> [] -> (2 * List.length (members_toks toks_of obj) + 1 <= f)%nat ->
  exists l2, parse_members f acc (app (members_toks toks_of obj) (tok JsonTokenObjectEnd "}" :: rest))
             = POk (app acc l2) rest /\ members_equiv rt_equiv obj l2.
Proof.
  intro HF. induction HF as [|[k x] l Hx HF IH];
    intros Hr Hs acc f rest Hacc Hne Hf; [contradiction|].
  cbn [members_ready] in Hr. apply andb_prop in Hr as [Hr Hl].
  apply andb_prop in Hr as [Hk Hxr]. cbn [snd] in Hx.
  cbn [keys_sorted] in Hs. apply andb_prop in Hs as [Hkl Hsl].
  cbn [members_toks List.length] in Hf. rewrite !length_app in Hf.
  destruct f as [|f]; [lia|].
  destruct (Hx f (app (sep_tok l) (app (members_toks toks_of l) (tok JsonTokenObjectEnd "}" :: rest))) Hxr)
    as (w & Hw & Heq); [lia|].
  assert (Hbelow : forall p, In p acc -> str_lt (fst p) k = true).
  { intros p Hp. specialize (Hacc p Hp). cbn [forallb fst] in Hacc.
    apply andb_prop in Hacc as [H _]. exact H. }
  cbn [members_toks app]. rewrite <- !app_assoc.
  cbn [parse_members getTokenType JsonTokenType_eqb negb getValue tok].
  rewrite (processToken_hit JsonTokenAssign true (tok JsonTokenAssign ":") _ eq_refl), Hw, (obj_find_below _ _ Hbelow),
    (obj_insert_above _ _ _ Hbelow).
  destruct l as [|[k2 x2] l'].
  - cbn [sep_tok members_toks app].
    rewrite (processToken_miss JsonTokenNext (tok JsonTokenObjectEnd "}") rest eq_refl),
      (parse_close_hit JsonTokenObjectEnd _ (tok JsonTokenObjectEnd "}") rest eq_refl).
    exists [(k, w)]. split; [reflexivity|]. cbn [members_equiv]. tauto.
  - cbn [sep_tok app]. rewrite (processToken_hit JsonTokenNext false (tok JsonTokenNext ",") _ eq_refl).
    cbn [members_toks app].
    destruct (IH Hl Hsl (app acc [(k, w)]) f rest) as (l2 & Hl2 & Heq2).
    + intros p Hp. apply in_app_or in Hp as [Hp|Hp].
      * specialize (Hacc p Hp). cbn [forallb] in Hacc. apply andb_prop in Hacc as [_ H]. exact H.
      * destruct Hp as [<-|[]]. exact Hkl.
    + discriminate.
    + cbn [members_toks List.length] in Hf |- *. rewrite !length_app in Hf |- *. lia.
    + cbn [members_toks app] in Hl2. rewrite Hl2.
      exists ((k, w) :: l2). split; [rewrite <- app_assoc; reflexivity|].
      cbn [members_equiv]. tauto.
Qed.

Lemma toks_of_head (x : JsonValue) :
  exists t ts, toks_of x = t :: ts /\
    (DataType_eqb (_type x) VArray = false ->
     JsonTokenType_eqb (getTokenType t) JsonTokenArrayStart = false).
Proof.
  destruct x as [dd i u b s obj arr ty]; destruct ty; cbn [toks_of];
    eexists _, _; (split; [reflexivity|]); cbn; intro H; first [reflexivity | discriminate H].
Qed.

Lemma parse_elements_toks (arr : JsonArray) :
  Forall (fun x => forall f rest, rt_ready x = true ->
            (2 * List.length (toks_of x) <= f)%nat ->
            exists w, parse_value f JsonValue_default (app (toks_of x) rest) = POk w rest
                      /\ rt_equiv x w) arr ->
  elements_ready rt_ready arr = true ->
  forall acc f rest,
  arr <> [] -> (2 * List.length (elements_toks toks_of arr) + 1 <= f)%nat ->
  exists l2, parse_elements f acc (app (elements_toks toks_of arr) (tok JsonTokenArrayEnd "]" :: rest))
             = POk (app acc l2) rest /\ elements_equiv rt_equiv arr l2.
Proof.
  intro HF. induction HF as [|x l Hx HF IH]; intros Hr acc f rest Hne Hf; [contradiction|].
  cbn [elements_ready] in Hr. apply andb_prop in Hr as [Hxr Hl].
  cbn [elements_toks] in Hf. rewrite !length_app in Hf.
  destruct f as [|f]; [lia|].
  destruct (Hx f (app (sep_tok l) (app (elements_toks toks_of l) (tok JsonTokenArrayEnd "]" :: rest))) Hxr)
    as (w & Hw & Heq); [lia|].
  cbn [elements_toks]. rewrite <- !app_assoc.
  cbn [parse_elements]. rewrite Hw.
  destruct l as [|x2 l'].
  - cbn [sep_tok elements_toks app].
    rewrite (processToken_miss JsonTokenNext (tok JsonTokenArrayEnd "]") rest eq_refl),
      (parse_close_hit JsonTokenArrayEnd _ (tok JsonTokenArrayEnd "]") rest eq_refl).
    exists [w]. split; [reflexivity|]. cbn [elements_equiv]. tauto.
  - cbn [sep_tok app]. rewrite (processToken_hit JsonTokenNext false (tok JsonTokenNext ",") _ eq_refl).
    destruct (IH Hl (app acc [w]) f rest) as (l2 & Hl2 & Heq2).
    + discriminate.
    + cbn [elements_toks sep_tok] in Hf |- *. rewrite !length_app in Hf |- *.
      cbn [List.length] in Hf. lia.
    + destruct (toks_of_head x2) as (t & ts & Et & _).
      cbn [elements_toks] in Hl2 |- *. rewrite Et in Hl2 |- *. cbn [app] in Hl2 |- *.
      rewrite Hl2.
      exists (w :: l2). split; [rewrite <- app_assoc; reflexivity|].
      cbn [elements_equiv]. tauto.
Qed.

(** The parser reads [toks_of v] back as a tree that agrees with [v]. *)
Lemma parse_toks_of (v : JsonValue) :
  forall f rest, rt_ready v = true -> (2 * List.length (toks_of v) <= f)%nat ->
  exists w, parse_value f JsonValue_default (app (toks_of v) rest) = POk w rest
            /\ rt_equiv v w.
Proof.
  induction v as [dd i u b s obj arr ty Hobj Harr] using JsonValue_nested_ind.
  intros f rest Hr Hf.
  destruct ty; cbn [rt_ready] in Hr; cbn [toks_of List.length] in Hf;
    destruct f as [|f]; try lia.
  - eexists; split; [reflexivity|]. reflexivity.
  - eexists; split; [reflexivity|]. destruct b; split; reflexivity.
  - eexists; split; [reflexivity|]. cbn [rt_equiv].
    unfold parseNumber. cbn [getValue tok].
    pose proof (dbl_trunc_range dd) as Ht.
    rewrite parse_to_string_Z by (unfold INT_MIN, INT_MAX in Ht; lia).
    split; [reflexivity|]. exact (dbl_trunc_int _ Ht).
  - eexists; split; [reflexivity|]. cbn [rt_equiv].
    unfold parseNumber. cbn [getValue tok].
    rewrite parse_to_string_Z by (apply Z.ltb_lt; exact Hr).
    split; reflexivity.
  - eexists; split; [reflexivity|]. cbn [rt_equiv].
    unfold parseNumber. cbn [getValue tok].
    apply andb_prop in Hr as [Hr0 Hr1]. apply Z.leb_le in Hr0. apply Z.ltb_lt in Hr1.
    rewrite parse_to_string_Z by lia.
    split; reflexivity.
  - eexists; split; [reflexivity|]. cbn [rt_equiv].
    unfold parseNumber. cbn [getValue tok]. rewrite (parse_to_string_double _ Hr).
    destruct dd as [m e]. cbn [dexp dmant].
    destruct (Z.leb_spec 0 e) as [He|He].
    + unfold dbl_frac_is_zero. cbn [dexp dmant].
      rewrite (proj2 (Z.leb_le 0 e) He). cbn. split; [reflexivity|].
      unfold dbl_eqv. cbn [dexp dmant]. rewrite Z.min_l by lia.
      rewrite !Z.sub_0_r. simpl. ring.
    + destruct (dbl_frac_is_zero (mkDbl m e)); cbn; (split; [reflexivity|]);
        unfold dbl_eqv; reflexivity.
  - eexists; split; [reflexivity|]. split; reflexivity.
  - destruct obj as [|[k x] obj']; [discriminate|].
    apply andb_prop in Hr as [Hr Hm]. apply andb_prop in Hr as [_ Hsorted].
    destruct (parse_members_toks _ Hobj Hm Hsorted [] f rest) as (l2 & Hl2 & Heq).
    + intros p [].
    + discriminate.
    + rewrite length_app in Hf. cbn [List.length] in Hf. lia.
    + cbn [app] in Hl2. cbn [toks_of app]. rewrite <- app_assoc. cbn [app].
      cbn [members_toks app] in Hl2 |- *.
      cbn [parse_value getTokenType tok JsonTokenType_eqb negb].
      change (getObject (setType VObject JsonValue_default)) with (@nil (string * JsonValue)).
      rewrite Hl2.
      eexists; split; [reflexivity|]. split; [reflexivity|]. exact Heq.
  - destruct arr as [|x arr']; [discriminate|].
    apply andb_prop in Hr as [Hx Hm].
    destruct (parse_elements_toks _ Harr Hm [] f rest) as (l2 & Hl2 & Heq).
    + discriminate.
    + rewrite length_app in Hf. cbn [List.length] in Hf. lia.
    + destruct (toks_of_head x) as (t & ts & Et & Ht).
      cbn [toks_of app]. rewrite <- app_assoc. cbn [app].
      cbn [elements_toks] in Hl2 |- *. rewrite Et in Hl2 |- *. cbn [app] in Hl2 |- *.
      cbn [parse_value getTokenType tok].
      rewrite (Ht (proj1 (negb_true_iff _) Hx)). cbn [negb].
      change (getArray (setType VArray JsonValue_default)) with (@nil JsonValue).
      rewrite Hl2.
      eexists; split; [reflexivity|]. split; [reflexivity|]. exact Heq.
Qed.

(** ** C2: round trip of the writer through the reader *)




(** ** The [std::map] of a [JsonObject]: lookup, insertion and [get] *)

Lemma string_compare_lt_trans (a b c : string) :
  String.compare a b = Lt -> String.compare b c = Lt -> String.compare a c = Lt.
Proof.
  revert b c. induction a as [|x a IH]; intros [|y b] [|z c]; cbn [String.compare];
    intros H1 H2; try discriminate; try reflexivity.
  unfold Ascii.compare in *.
  destruct (N.compare_spec (N_of_ascii x) (N_of_ascii y)) as [Exy|Lxy|Gxy];
  destruct (N.compare_spec (N_of_ascii y) (N_of_ascii z)) as [Eyz|Lyz|Gyz]; try discriminate.
  - rewrite Exy, Eyz, N.compare_refl. exact (IH _ _ H1 H2).
  - rewrite Exy. rewrite (proj2 (N.compare_lt_iff _ _) Lyz). reflexivity.
  - rewrite <- Eyz, (proj2 (N.compare_lt_iff _ _) Lxy). reflexivity.
  - rewrite (proj2 (N.compare_lt_iff _ _) (N.lt_trans _ _ _ Lxy Lyz)). reflexivity.
Qed.

Lemma str_lt_trans (a b c : string) :
  str_lt a b = true -> str_lt b c = true -> str_lt a c = true.
Proof.
  unfold str_lt. intros H1 H2.
  destruct (String.compare a b) eqn:E1; try discriminate.
  destruct (String.compare b c) eqn:E2; try discriminate.
  rewrite (string_compare_lt_trans _ _ _ E1 E2). reflexivity.
Qed.

Lemma string_compare_eq (a b : string) : String.compare a b = Eq -> a = b.
Proof. apply String.compare_eq_iff. Qed.

Lemma string_compare_gt_lt (a b : string) : String.compare a b = Gt -> str_lt b a = true.
Proof.
  unfold str_lt. intro H. rewrite String.compare_antisym, H. reflexivity.
Qed.

Lemma obj_insert_in (key : string) (value : JsonValue) (obj : JsonObject) p :
  In p (obj_insert key value obj) -> p = (key, value) \/ In p obj.
Proof.
  induction obj as [|[k v] obj IH]; cbn [obj_insert].
  - intros [H|[]]. left. symmetry. exact H.
  - destruct (String.compare key k).
    + intros [H|H]; [left; symmetry; exact H | right; right; exact H].
    + intros [H|H]; [left; symmetry; exact H | right; exact H].
    + intros [H|H]; [right; left; exact H|].
      destruct (IH H) as [E|E]; [left; exact E | right; right; exact E].
Qed.

Lemma forallb_lt_insert (k0 key : string) (value : JsonValue) (obj : JsonObject) :
  str_lt k0 key = true ->
  forallb (fun p => str_lt k0 (fst p)) obj = true ->
  forallb (fun p => str_lt k0 (fst p)) (obj_insert key value obj) = true.
Proof.
  intros Hk Hall. apply forallb_forall. intros p Hp.
  destruct (obj_insert_in _ _ _ _ Hp) as [->|Hin]; [exact Hk|].
  exact (proj1 (forallb_forall _ _) Hall p Hin).
Qed.

Lemma obj_find_above (key : string) (obj : JsonObject) :
  forallb (fun p => str_lt key (fst p)) obj = true -> obj_find key obj = false.
Proof.
  induction obj as [|[k v] obj IH]; cbn [forallb obj_find fst]; [reflexivity|].
  intro H. apply andb_prop in H as [H1 H2].
  rewrite String.eqb_sym, (str_lt_neq _ _ H1). exact (IH H2).
Qed.

Lemma obj_lookup_insert_same (key : string) (value : JsonValue) (obj : JsonObject) :
  obj_lookup key (obj_insert key value obj) = Some value.
Proof.
  induction obj as [|[k v] obj IH]; cbn [obj_insert].
  - cbn [obj_lookup]. rewrite String.eqb_refl. reflexivity.
  - destruct (String.compare key k) eqn:E; cbn [obj_lookup];
      try (rewrite String.eqb_refl; reflexivity).
    assert (N : String.eqb k key = false).
    { destruct (String.eqb_spec k key) as [->|]; [|reflexivity].
      rewrite string_compare_refl in E. discriminate. }
    rewrite N. exact IH.
Qed.

Lemma obj_lookup_insert_other (key key' : string) (value : JsonValue) (obj : JsonObject) :
  key' <> key -> obj_lookup key' (obj_insert key value obj) = obj_lookup key' obj.
Proof.
  intro Hne. assert (N : String.eqb key key' = false).
  { destruct (String.eqb_spec key key') as [->|]; [congruence | reflexivity]. }
  induction obj as [|[k v] obj IH]; cbn [obj_insert].
  - cbn [obj_lookup]. rewrite N. reflexivity.
  - destruct (String.compare key k) eqn:E; cbn [obj_lookup].
    + apply string_compare_eq in E. subst k. rewrite N. reflexivity.
    + rewrite N. reflexivity.
    + rewrite IH. reflexivity.
Qed.

Lemma obj_count_zero (key : string) (obj : JsonObject) :
  Nat.eqb (obj_count key obj) 0 = match obj_lookup key obj with Some _ => false | None => true end.
Proof.
  unfold obj_count. induction obj as [|[k v] obj IH]; [reflexivity|].
  cbn [filter obj_lookup fst]. destruct (String.eqb k key); [reflexivity | exact IH].
Qed.

Lemma JsonObject_get_lookup (key : string) (obj : JsonObject) :
  JsonObject_get key obj =
  match obj_lookup key obj with
  | Some v => Ok v
  | None => Throw (OutOfRange ("no element '" ++ c_str key ++ "' found in caontainer"))
  end.
Proof.
  unfold JsonObject_get, obj_index. rewrite obj_count_zero.
  destruct (obj_lookup key obj); reflexivity.
Qed.

Lemma obj_insert_length_new (key : string) (value : JsonValue) (obj : JsonObject) :
  obj_lookup key obj = None -> List.length (obj_insert key value obj) = S (List.length obj).
Proof.
  induction obj as [|[k v] obj IH]; [reflexivity|]. cbn [obj_insert obj_lookup].
  destruct (String.eqb_spec k key) as [_|Hne]; [discriminate|]. intro H.
  destruct (String.compare key k) eqn:E.
  - apply string_compare_eq in E. congruence.
  - reflexivity.
  - cbn [List.length]. rewrite (IH H). reflexivity.
Qed.

(** X1: [JsonObject::get] of a key just [insert]ed returns the value
    inserted, whatever the key was bound to before. *)
Lemma X1_get_after_insert (key : string) (value : JsonValue) (obj : JsonObject) :
  JsonObject_get key (obj_insert key value obj) = Ok value.
Proof.
  rewrite JsonObject_get_lookup, obj_lookup_insert_same. reflexivity.
Qed.

(** X2: [JsonObject::insert] under one key leaves [JsonObject::get] of
    every other key unchanged, a throw included. *)
Lemma X2_get_insert_other (key key' : string) (value : JsonValue) (obj : JsonObject) :
  key' <> key -> JsonObject_get key' (obj_insert key value obj) = JsonObject_get key' obj.
Proof.
  intro Hne. rewrite !JsonObject_get_lookup, (obj_lookup_insert_other _ _ _ _ Hne).
  reflexivity.
Qed.

Lemma X2_witness :
  "b" <> "a" /\
  JsonObject_get "b" (obj_insert "a" (JsonValue_of_bool true) [("b", JsonValue_of_string "x")])
  = JsonObject_get "b" [("b", JsonValue_of_string "x")].
Proof.
  split; [discriminate|]. apply (X2_get_insert_other "a" "b"). discriminate.
Defined.

(** X4: [JsonObject::insert] keeps the keys of the map strictly increasing. *)
Lemma X4_insert_keeps_sorted (key : string) (value : JsonValue) (obj : JsonObject) :
  keys_sorted obj = true -> keys_sorted (obj_insert key value obj) = true.
Proof.
  induction obj as [|[k v] obj IH]; [reflexivity|]. cbn [obj_insert keys_sorted].
  intro H. apply andb_prop in H as [Hall Hs].
  destruct (String.compare key k) eqn:E; cbn [keys_sorted forallb fst].
  - apply string_compare_eq in E. subst k. rewrite Hall, Hs. reflexivity.
  - assert (Hlt : str_lt key k = true) by (unfold str_lt; rewrite E; reflexivity).
    rewrite Hlt, Hall, Hs. cbn [andb]. rewrite andb_true_r.
    apply forallb_forall. intros p Hp.
    exact (str_lt_trans _ _ _ Hlt (proj1 (forallb_forall _ _) Hall p Hp)).
  - rewrite (IH Hs), forallb_lt_insert; [reflexivity | |exact Hall].
    exact (string_compare_gt_lt _ _ E).
Qed.

Lemma X4_witness :
  keys_sorted [("a", JsonValue_default); ("c", JsonValue_default)] = true /\
  keys_sorted (obj_insert "b" (JsonValue_of_bool true)
                 [("a", JsonValue_default); ("c", JsonValue_default)]) = true.
Proof.
  split; [reflexivity|]. apply X4_insert_keeps_sorted. reflexivity.
Defined.

(** X5: on a sorted map, [JsonObject::insert] of a key already present
    keeps the size, and of a new key grows it by one. *)
Lemma X5_insert_size (key : string) (value : JsonValue) (obj : JsonObject) :
  keys_sorted obj = true ->
  JsonObject_size (obj_insert key value obj) =
  if obj_find key obj then JsonObject_size obj else S (JsonObject_size obj).
Proof.
  unfold JsonObject_size.
  induction obj as [|[k v] obj IH]; [reflexivity|]. cbn [obj_insert keys_sorted obj_find].
  intro H. apply andb_prop in H as [Hall Hs].
  destruct (String.compare key k) eqn:E.
  - apply string_compare_eq in E. subst k. rewrite String.eqb_refl. reflexivity.
  - assert (Hlt : str_lt key k = true) by (unfold str_lt; rewrite E; reflexivity).
    rewrite String.eqb_sym, (str_lt_neq _ _ Hlt), obj_find_above; [reflexivity|].
    apply forallb_forall. intros p Hp.
    exact (str_lt_trans _ _ _ Hlt (proj1 (forallb_forall _ _) Hall p Hp)).
  - assert (N : String.eqb k key = false).
    { destruct (String.eqb_spec k key) as [->|]; [|reflexivity].
      rewrite string_compare_refl in E. discriminate. }
    rewrite N. cbn [orb List.length]. rewrite (IH Hs).
    destruct (obj_find key obj); reflexivity.
Qed.

Lemma X5_witness :
  keys_sorted [("a", JsonValue_default)] = true /\
  JsonObject_size (obj_insert "a" (JsonValue_of_bool true) [("a", JsonValue_default)]) = 1.
Proof.
  split; [reflexivity|].
  rewrite (X5_insert_size "a" (JsonValue_of_bool true) [("a", JsonValue_default)]);
    reflexivity.
Defined.

(** X6: [JsonObject::operator[]] with a key that is absent returns a
    default [JsonValue] and adds it under that key: the map grows by one
    and [JsonObject::get] of the key then returns the default value. *)
Lemma X6_index_absent_inserts (name : string) (obj : JsonObject) :
  obj_lookup name obj = None ->
  let '(r, obj') := obj_index name obj in
  r = JsonValue_default /\
  JsonObject_get name obj' = Ok JsonValue_default /\
  JsonObject_size obj' = S (JsonObject_size obj).
Proof.
  intro H. unfold obj_index. rewrite H. split; [reflexivity|]. split.
  - rewrite JsonObject_get_lookup, obj_lookup_insert_same. reflexivity.
  - exact (obj_insert_length_new _ _ _ H).
Qed.

Lemma X6_witness :
  obj_lookup "b" [("a", JsonValue_of_bool true)] = None /\
  let '(r, obj') := obj_index "b" [("a", JsonValue_of_bool true)] in
  r = JsonValue_default /\
  JsonObject_get "b" obj' = Ok JsonValue_default /\
  JsonObject_size obj' = S (JsonObject_size [("a", JsonValue_of_bool true)]).
Proof.
  split; [reflexivity|]. apply X6_index_absent_inserts. reflexivity.
Defined.

(** ** [JsonArray]: [pushBack], [insert] and [erase] seen through [at] *)

Lemma JsonArray_at_in_bounds (a : JsonArray) (i : nat) :
  i < List.length a -> JsonArray_at a i = vector_at a i.
Proof.
  intro H. unfold JsonArray_at.
  replace (Nat.ltb (List.length a) i) with false by (symmetry; apply Nat.ltb_ge; lia).
  reflexivity.
Qed.

Lemma JsonArray_at_same (a a' : JsonArray) (i i' : nat) :
  i < List.length a -> i' < List.length a' -> nth_error a' i' = nth_error a i ->
  JsonArray_at a' i' = JsonArray_at a i.
Proof.
  intros H H' E. rewrite !JsonArray_at_in_bounds by assumption.
  unfold vector_at. rewrite E.
  destruct (nth_error a i) eqn:Ei; [reflexivity|].
  apply nth_error_None in Ei. lia.
Qed.

Lemma JsonArray_at_nth (a : JsonArray) (i : nat) (x : JsonValue) :
  nth_error a i = Some x -> JsonArray_at a i = Ok x.
Proof.
  intro E. assert (H : i < List.length a) by (apply nth_error_Some; congruence).
  rewrite JsonArray_at_in_bounds by exact H. unfold vector_at. rewrite E. reflexivity.
Qed.

Lemma skipn_nth (a : JsonArray) (pos : nat) (x : JsonValue) :
  nth_error a pos = Some x -> skipn pos a = x :: skipn (S pos) a.
Proof.
  revert a. induction pos as [|pos IH]; intros [|y a] E; cbn [nth_error skipn] in *;
    try discriminate.
  - injection E as ->. reflexivity.
  - exact (IH a E).
Qed.

(** X7: after [JsonArray::pushBack], the array is one longer, [at] its
    old size gives the value pushed and [at] every older index gives
    what it gave before. *)
Lemma X7_pushBack_at (a : JsonArray) (value : JsonValue) :
  List.length (JsonArray_pushBack a value) = S (List.length a) /\
  JsonArray_at (JsonArray_pushBack a value) (List.length a) = Ok value /\
  (forall i, i < List.length a ->
     JsonArray_at (JsonArray_pushBack a value) i = JsonArray_at a i).
Proof.
  unfold JsonArray_pushBack.
  assert (L : List.length (app a [value]) = S (List.length a))
    by (rewrite length_app; cbn [List.length]; lia).
  split; [exact L|]. split.
  - apply JsonArray_at_nth. rewrite nth_error_app2, Nat.sub_diag by lia. reflexivity.
  - intros i Hi. apply JsonArray_at_same; [exact Hi | lia |].
    apply nth_error_app1. exact Hi.
Qed.

(** X8: [JsonArray::insert] at a valid position [pos] returns [pos] as
    the iterator to the new element: [at] it gives the value inserted,
    the array is one longer, the elements before [pos] keep their
    indices and the others move up by one. *)
Lemma X8_insert_at (a : JsonArray) (pos : nat) (value : JsonValue) :
  pos <= List.length a ->
  let '(a', it) := JsonArray_insert a pos value in
  JsonArray_at a' it = Ok value /\
  List.length a' = S (List.length a) /\
  (forall i, i < pos -> JsonArray_at a' i = JsonArray_at a i) /\
  (forall i, pos <= i < List.length a -> JsonArray_at a' (S i) = JsonArray_at a i).
Proof.
  intro Hp. unfold JsonArray_insert.
  assert (Lf : List.length (firstn pos a) = pos) by (apply firstn_length_le; exact Hp).
  assert (L : List.length (app (firstn pos a) (value :: skipn pos a)) = S (List.length a)).
  { rewrite length_app, Lf. cbn [List.length]. rewrite length_skipn. lia. }
  split; [|split; [exact L | split]].
  - apply JsonArray_at_nth. rewrite nth_error_app2 by lia.
    rewrite Lf, Nat.sub_diag. reflexivity.
  - intros i Hi. apply JsonArray_at_same; [lia | lia |].
    rewrite nth_error_app1 by lia. rewrite nth_error_firstn.
    replace (Nat.ltb i pos) with true by (symmetry; apply Nat.ltb_lt; exact Hi).
    reflexivity.
  - intros i Hi. apply JsonArray_at_same; [lia | lia |].
    rewrite nth_error_app2 by lia. rewrite Lf.
    replace (S i - pos) with (S (i - pos)) by lia. cbn [nth_error].
    rewrite nth_error_skipn. f_equal. lia.
Qed.

Lemma X8_witness :
  1 <= List.length [JsonValue_of_bool true] /\
  let '(a', it) := JsonArray_insert [JsonValue_of_bool true] 1 (JsonValue_of_string "x") in
  JsonArray_at a' it = Ok (JsonValue_of_string "x") /\
  List.length a' = S (List.length [JsonValue_of_bool true]) /\
  (forall i, i < 1 -> JsonArray_at a' i = JsonArray_at [JsonValue_of_bool true] i) /\
  (forall i, 1 <= i < List.length [JsonValue_of_bool true] ->
     JsonArray_at a' (S i) = JsonArray_at [JsonValue_of_bool true] i).
Proof.
  split; [cbn; lia|]. apply X8_insert_at. cbn; lia.
Defined.

(** X9: [JsonArray::erase] at a valid position [pos] makes the array one
    shorter; the elements before [pos] keep their indices, the later ones
    move down by one, so the returned iterator [pos] points to the element
    that followed the erased one. *)
Lemma X9_erase_at (a : JsonArray) (pos : nat) :
  pos < List.length a ->
  let '(a', it) := JsonArray_erase a pos in
  it = pos /\
  List.length a' = pred (List.length a) /\
  (forall i, i < pos -> JsonArray_at a' i = JsonArray_at a i) /\
  (forall i, pos <= i -> S i < List.length a -> JsonArray_at a' i = JsonArray_at a (S i)).
Proof.
  intro Hp. unfold JsonArray_erase.
  assert (Lf : List.length (firstn pos a) = pos) by (apply firstn_length_le; lia).
  assert (L : List.length (app (firstn pos a) (skipn (S pos) a)) = pred (List.length a)).
  { rewrite length_app, Lf, length_skipn. lia. }
  split; [reflexivity | split; [exact L | split]].
  - intros i Hi. apply JsonArray_at_same; [lia | lia |].
    rewrite nth_error_app1 by lia. rewrite nth_error_firstn.
    replace (Nat.ltb i pos) with true by (symmetry; apply Nat.ltb_lt; exact Hi).
    reflexivity.
  - intros i Hi Hs. apply JsonArray_at_same; [lia | lia |].
    rewrite nth_error_app2 by lia. rewrite Lf, nth_error_skipn. f_equal. lia.
Qed.

Lemma X9_witness :
  0 < List.length [JsonValue_of_bool true; JsonValue_of_string "x"] /\
  let '(a', it) := JsonArray_erase [JsonValue_of_bool true; JsonValue_of_string "x"] 0 in
  it = 0 /\
  List.length a' = pred (List.length [JsonValue_of_bool true; JsonValue_of_string "x"]) /\
  (forall i, i < 0 -> JsonArray_at a' i = JsonArray_at [JsonValue_of_bool true; JsonValue_of_string "x"] i) /\
  (forall i, 0 <= i -> S i < List.length [JsonValue_of_bool true; JsonValue_of_string "x"] ->
     JsonArray_at a' i = JsonArray_at [JsonValue_of_bool true; JsonValue_of_string "x"] (S i)).
Proof.
  split; [cbn; lia|]. apply X9_erase_at. cbn; lia.
Defined.

(** X10: [JsonArray::erase] at the iterator returned by
    [JsonArray::insert] gives back the original array, and inserting an
    erased element back where it was gives back the original array. *)
Lemma X10_insert_erase_inverse (a : JsonArray) (pos : nat) (value : JsonValue) :
  pos <= List.length a ->
  (let '(a', it) := JsonArray_insert a pos value in fst (JsonArray_erase a' it) = a) /\
  (nth_error a pos = Some value ->
   fst (JsonArray_insert (fst (JsonArray_erase a pos)) pos value) = a).
Proof.
  intro Hp. unfold JsonArray_insert, JsonArray_erase. cbn [fst].
  assert (Lf : List.length (firstn pos a) = pos) by (apply firstn_length_le; exact Hp).
  split.
  - rewrite firstn_app, Lf, Nat.sub_diag, firstn_all2 by lia. cbn [firstn].
    rewrite app_nil_r, skipn_app, Lf.
    rewrite skipn_all2 by lia. replace (S pos - pos) with 1 by lia. cbn [skipn app].
    apply firstn_skipn.
  - intro E. rewrite firstn_app, Lf, Nat.sub_diag, firstn_all2 by lia. cbn [firstn].
    rewrite app_nil_r, skipn_app, Lf, skipn_all2 by lia. rewrite Nat.sub_diag. cbn [app].
    change (skipn 0 (skipn (S pos) a)) with (skipn (S pos) a).
    rewrite <- (skipn_nth _ _ _ E). apply firstn_skipn.
Qed.

Lemma X10_witness :
  1 <= List.length [JsonValue_of_bool true; JsonValue_of_string "x"] /\
  ((let '(a', it) := JsonArray_insert [JsonValue_of_bool true; JsonValue_of_string "x"] 1
                       (JsonValue_of_string "x") in
    fst (JsonArray_erase a' it) = [JsonValue_of_bool true; JsonValue_of_string "x"]) /\
   (nth_error [JsonValue_of_bool true; JsonValue_of_string "x"] 1 = Some (JsonValue_of_string "x") ->
    fst (JsonArray_insert (fst (JsonArray_erase [JsonValue_of_bool true; JsonValue_of_string "x"] 1))
           1 (JsonValue_of_string "x")) = [JsonValue_of_bool true; JsonValue_of_string "x"])).
Proof.
  split; [cbn; lia|]. apply X10_insert_erase_inverse. cbn; lia.
Defined.

(** ** The reader on texts of one token *)

Lemma in_scan_case_chars (c : ascii) :
  In c scan_case_chars <-> existsb (Ascii.eqb c) scan_case_chars = true.
Proof.
  rewrite existsb_exists. split.
  - intro H. exists c. split; [exact H | apply Ascii.eqb_refl].
  - intros (x & Hx & E). apply Ascii.eqb_eq in E. subst x. exact Hx.
Qed.

Lemma scan_token_unexpected (c : ascii) (r : string) :
  existsb (Ascii.eqb c) scan_case_chars = false ->
  scan_token (String c r) = Some (SThrow ("Unexpected start sequence: " ++ str1 c)).
Proof. destruct c as [[] [] [] [] [] [] [] []]; intro H; try discriminate H; reflexivity. Qed.

(** X11: a text whose first character after the leading whitespace has
    no [case] in the [switch] of [scan] makes [read] throw
    "Unexpected start sequence: " followed by that character, before the
    caller's value is touched. *)
Lemma X11_unexpected_start (w : string) (c : ascii) (r : string) (v : JsonValue) :
  all_white w = true -> isWhiteSpace c = false -> ~ In c scan_case_chars ->
  read (w ++ String c r) v = ReadThrow ("Unexpected start sequence: " ++ str1 c) v.
Proof.
  intros Hw Hc Hn. unfold read, scan.
  rewrite scan_loop_white by (exact Hw || (rewrite eatWhitespace_nonwhite by exact Hc; discriminate)).
  cbn [scan_loop]. rewrite (eatWhitespace_nonwhite _ _ Hc), scan_token_unexpected; [reflexivity|].
  destruct (existsb (Ascii.eqb c) scan_case_chars) eqn:E; [|reflexivity].
  exfalso. apply Hn. apply in_scan_case_chars. exact E.
Qed.

Lemma X11_witness :
  all_white " " = true /\ isWhiteSpace "x" = false /\ ~ In "x"%char scan_case_chars /\
  read (" " ++ String "x" "yz") JsonValue_default
  = ReadThrow ("Unexpected start sequence: " ++ str1 "x") JsonValue_default.
Proof.
  assert (Hn : ~ In "x"%char scan_case_chars).
  { intro H. apply in_scan_case_chars in H. discriminate H. }
  split; [reflexivity | split; [reflexivity | split; [exact Hn|]]].
  apply X11_unexpected_start; [reflexivity | reflexivity | exact Hn].
Defined.

(** X12: a NUL character after the leading whitespace, anywhere but at
    the end of the text, makes [read] never return: [scan] pushes empty
    tokens at it without moving ahead. *)
Lemma X12_nul_loops (w r : string) (v : JsonValue) :
  all_white w = true -> read (w ++ String ch_nul r) v = ReadLoops.
Proof.
  intro Hw. unfold read, scan.
  rewrite scan_loop_white by (exact Hw || discriminate). reflexivity.
Qed.

Lemma X12_witness :
  all_white (String ch_tab " ") = true /\
  read (String ch_tab " " ++ String ch_nul "1") JsonValue_default = ReadLoops.
Proof. split; [reflexivity|]. apply X12_nul_loops. reflexivity. Defined.

Lemma take_chars_short (n : nat) (s : string) :
  String.length s <= n -> take_chars n s = (s, EmptyString).
Proof.
  revert s. induction n as [|n IH]; intros [|c s] H; cbn [String.length] in H;
    try reflexivity; try lia.
  cbn [take_chars]. rewrite IH by lia. reflexivity.
Qed.

Lemma getJsonBoolean_short (c : ascii) (s : string) (size : nat) :
  (size = if Ascii.eqb c "f" then 5 else 4) -> String.length s < size ->
  getJsonBoolean (String c s) = SOk (String c s) EmptyString.
Proof.
  intros Hsz Hl. unfold getJsonBoolean. cbn [peek]. rewrite <- Hsz.
  rewrite take_chars_short by (cbn [String.length]; lia).
  destruct (String.eqb_spec (String c s) "true") as [E|E]; [rewrite E; reflexivity | reflexivity].
Qed.

Lemma read_boolean_short (c : ascii) (s : string) (v : JsonValue) :
  (Ascii.eqb c "t" || Ascii.eqb c "f") = true ->
  String.length s < (if Ascii.eqb c "f" then 5 else 4) ->
  read (String c s) v =
  ReadOk (setType VBoolean (setBool (String.eqb (String c s) "true") v)).
Proof.
  intros Hc Hl. unfold read, scan. cbn [String.length].
  assert (Hw : isWhiteSpace c = false)
    by (destruct c as [[] [] [] [] [] [] [] []]; try discriminate Hc; reflexivity).
  assert (Ht : scan_token (String c s) =
               Some (SOk (mkJsonToken JsonTokenBoolean (String c s)) EmptyString)).
  { unfold scan_token. rewrite (getJsonBoolean_short c s _ eq_refl Hl).
    destruct c as [[] [] [] [] [] [] [] []]; try discriminate Hc; reflexivity. }
  rewrite (scan_loop_token _ _ _ _ _ _ Hw Ht), scan_loop_empty. reflexivity.
Qed.

(** X13: a text of at most four characters that starts with [t], or of
    at most five that starts with [f], reads as a Boolean whatever the
    other characters are (whitespace included): [true] exactly for the
    text [true], [false] for every other. *)
Lemma X13_short_boolean_words (s : string) (v : JsonValue) :
  (String.length s <= 3 ->
   read (String "t" s) v = ReadOk (setType VBoolean (setBool (String.eqb (String "t" s) "true") v))) /\
  (String.length s <= 4 ->
   read (String "f" s) v = ReadOk (setType VBoolean (setBool false v))).
Proof.
  split; intro Hl.
  - apply read_boolean_short; [reflexivity | cbn; lia].
  - rewrite read_boolean_short by (reflexivity || (cbn; lia)). reflexivity.
Qed.

Lemma digits_value_acc_shift (acc : N) (s : string) :
  digits_value_acc acc s = (acc * 10 ^ N.of_nat (String.length s) + digits_value s)%N.
Proof.
  unfold digits_value. revert acc. induction s as [|c s IH]; intro acc.
  - cbn. lia.
  - cbn [digits_value_acc String.length]. rewrite (IH (acc * 10 + digit_val c)%N), (IH (0 * 10 + digit_val c)%N).
    rewrite Nat2N.inj_succ, N.pow_succ_r'. lia.
Qed.

Lemma digits_value_bound (s : string) :
  all_digits s = true -> (digits_value s < 10 ^ N.of_nat (String.length s))%N.
Proof.
  induction s as [|c s IH]; [intros; cbn; lia|].
  cbn [all_digits]. intro H. apply andb_prop in H as [Hc Hs].
  unfold digits_value. cbn [digits_value_acc String.length].
  rewrite digits_value_acc_shift.
  assert (Hd : (digit_val c < 10)%N).
  { unfold is_digit in Hc. apply andb_prop in Hc as [H1 H2].
    apply N.leb_le in H1, H2. unfold digit_val. lia. }
  specialize (IH Hs). rewrite Nat2N.inj_succ, N.pow_succ_r'. nia.
Qed.

Lemma frac_is_zero_digits (neg : bool) (s1 s2 : string) :
  all_digits s2 = true ->
  dbl_frac_is_zero (mkDbl (sgn neg (Z.of_N (digits_value (s1 ++ s2))))
                          (- Z.of_nat (String.length s2)))
  = N.eqb (digits_value s2) 0.
Proof.
  intro Hs2. unfold dbl_frac_is_zero. cbn [dexp dmant].
  unfold digits_value at 1. rewrite digits_value_acc_app, digits_value_acc_shift.
  fold (digits_value s1).
  pose proof (digits_value_bound s2 Hs2) as Hb.
  set (L := String.length s2) in *. set (k := (10 ^ N.of_nat L)%N) in *.
  assert (Hrem : Z.rem (Z.of_N (digits_value s1 * k + digits_value s2)) (10 ^ (- - Z.of_nat L))
                 = Z.of_N (digits_value s2)).
  { rewrite Z.opp_involutive.
    assert (Ek : (10 ^ Z.of_nat L)%Z = Z.of_N k).
    { unfold k. rewrite N2Z.inj_pow, nat_N_Z. reflexivity. }
    rewrite Ek, <- N2Z.inj_rem. f_equal.
    rewrite N.add_comm, N.Div0.mod_add. apply N.mod_small. exact Hb. }
  destruct L as [|L'].
  - cbn. cbn in Hb. replace (digits_value s2) with 0%N by lia. reflexivity.
  - replace (0 <=? - Z.of_nat (S L'))%Z with false by (symmetry; apply Z.leb_gt; lia).
    cbn [orb]. destruct neg; cbn [sgn].
    + rewrite Z.rem_opp_l', Hrem. destruct (digits_value s2); reflexivity.
    + rewrite Hrem. destruct (digits_value s2); reflexivity.
Qed.

Lemma read_number_text (text : string) (v : JsonValue) :
  all_numeric text = true -> num_start text = true ->
  read text v = ReadOk (parseNumber (mkJsonToken JsonTokenNumber text) v).
Proof.
  intros Hn Hs. unfold read, scan.
  pose proof (scan_loop_number (String.length text) text EmptyString [] Hn Hs eq_refl) as H.
  rewrite string_app_nil_r in H. rewrite H, scan_loop_empty. reflexivity.
Qed.

Lemma num_start_signed (neg : bool) (s : string) :
  all_digits s = true -> s <> EmptyString -> num_start (Z_sign_text neg ++ s) = true.
Proof.
  intros Hd Hne. destruct neg; [reflexivity|].
  destruct s as [|c s]; [contradiction|]. cbn in Hd |- *.
  apply andb_prop in Hd as [Hc _]. rewrite Hc, orb_true_r. reflexivity.
Qed.

Lemma sgn_abs_bound (neg : bool) (n : N) :
  (n < 2 ^ 53)%N -> (Z.abs (sgn neg (Z.of_N n)) < 2 ^ 53)%Z.
Proof.
  intro H. apply N2Z.inj_lt in H. rewrite N2Z.inj_pow in H.
  destruct neg; cbn [sgn]; [rewrite Z.abs_opp|]; rewrite Z.abs_eq by lia; exact H.
Qed.

(** X14: an optional minus sign followed by decimal digits whose value is
    below [2^53] reads as a value tagged [VInt] whose [double] payload is
    the number the digits spell, with its sign. *)
Lemma X14_integer_text (neg : bool) (s : string) (v : JsonValue) :
  all_digits s = true -> s <> EmptyString -> (digits_value s < 2 ^ 53)%N ->
  read (Z_sign_text neg ++ s) v =
  ReadOk (setNumber (mkDbl (sgn neg (Z.of_N (digits_value s))) 0) (setType VInt v)).
Proof.
  intros Hd Hne Hb.
  rewrite read_number_text
    by first [apply signed_digits_numeric; exact Hd | apply num_start_signed; assumption].
  unfold parseNumber. cbn [getValue]. rewrite parse_double_text_integer by assumption.
  rewrite to_double_int by (apply sgn_abs_bound; exact Hb).
  reflexivity.
Qed.

Lemma X14_witness :
  all_digits "042" = true /\ "042" <> EmptyString /\ (digits_value "042" < 2 ^ 53)%N /\
  read (Z_sign_text true ++ "042") JsonValue_default =
  ReadOk (setNumber (mkDbl (sgn true (Z.of_N (digits_value "042"))) 0) (setType VInt JsonValue_default)).
Proof.
  split; [reflexivity | split; [discriminate | split; [vm_compute; reflexivity|]]].
  apply X14_integer_text; [reflexivity | discriminate | vm_compute; reflexivity].
Defined.

(** X15: an optional minus sign, decimal digits, a point and decimal
    digits, spelling a decimal that is a [double], read as that decimal;
    the value is tagged [VInt] when every digit after the point is zero
    (or there is none) and [VDouble] otherwise. *)
Lemma X15_fraction_text (neg : bool) (s1 s2 : string) (v : JsonValue) :
  all_digits s1 = true -> s1 <> EmptyString -> all_digits s2 = true ->
  is_binary64 (mkDbl (sgn neg (Z.of_N (digits_value (s1 ++ s2))))
                     (- Z.of_nat (String.length s2))) = true ->
  read (Z_sign_text neg ++ s1 ++ "." ++ s2) v =
  ReadOk (setNumber (mkDbl (sgn neg (Z.of_N (digits_value (s1 ++ s2))))
                           (- Z.of_nat (String.length s2)))
                    (setType (if N.eqb (digits_value s2) 0 then VInt else VDouble) v)).
Proof.
  intros Hd1 Hne Hd2 Hb.
  rewrite read_number_text.
  - unfold parseNumber. cbn [getValue]. rewrite parse_double_text_fraction by assumption.
    rewrite (to_double_binary64 _ Hb).
    rewrite frac_is_zero_digits by exact Hd2.
    destruct (N.eqb (digits_value s2) 0); reflexivity.
  - rewrite !all_numeric_app, (all_digits_numeric s1 Hd1), (all_digits_numeric s2 Hd2).
    destruct neg; reflexivity.
  - destruct neg; [reflexivity|].
    destruct s1 as [|c s1']; [contradiction|]. cbn in Hd1 |- *.
    apply andb_prop in Hd1 as [Hc _]. rewrite Hc, orb_true_r. reflexivity.
Qed.

Lemma X15_witness :
  all_digits "12" = true /\ "12" <> EmptyString /\ all_digits "50" = true /\
  is_binary64 (mkDbl (sgn false (Z.of_N (digits_value ("12" ++ "50"))))
                     (- Z.of_nat (String.length "50"))) = true /\
  read (Z_sign_text false ++ "12" ++ "." ++ "50") JsonValue_default =
  ReadOk (setNumber (mkDbl (sgn false (Z.of_N (digits_value ("12" ++ "50"))))
                           (- Z.of_nat (String.length "50")))
                    (setType (if N.eqb (digits_value "50") 0 then VInt else VDouble)
                       JsonValue_default)).
Proof.
  split; [reflexivity | split; [discriminate | split; [reflexivity | split; [vm_compute; reflexivity|]]]].
  apply X15_fraction_text; [reflexivity | discriminate | reflexivity | vm_compute; reflexivity].
Defined.

(** ** The reader fills the caller's value in place *)

Lemma parse_toks_of_all (l : list JsonValue) :
  Forall (fun x => forall f rest, rt_ready x = true ->
            (2 * List.length (toks_of x) <= f)%nat ->
            exists w, parse_value f JsonValue_default (app (toks_of x) rest) = POk w rest
                      /\ rt_equiv x w) l.
Proof. apply Forall_forall. intros x _. apply parse_toks_of. Qed.





(** ** The tokenizer consumes text at every token *)

Lemma getJsonString_loop_rest (n : nat) (s acc v rest : string) :
  String.length s < n -> getJsonString_loop s acc = SOk v rest ->
  String.length rest < String.length s.
Proof.
  revert s acc. induction n as [|n IH]; intros s acc Hl H; [lia|].
  destruct s as [|c s']; cbn [getJsonString_loop] in H; [discriminate|].
  cbn [String.length] in Hl |- *.
  destruct (Ascii.eqb c ch_dq); [injection H as _ <-; lia|].
  destruct (Ascii.eqb c ch_bs).
  - destruct s' as [|e s''].
    + apply IH in H; cbn in *; lia.
    + destruct (unescape e); [|discriminate].
      apply IH in H; cbn [String.length] in *; lia.
  - apply IH in H; lia.
Qed.

Lemma getJsonNumber_rest (s v rest : string) :
  getJsonNumber s = (v, rest) -> String.length rest <= String.length s.
Proof.
  revert v. induction s as [|c s IH]; intros v H; cbn [getJsonNumber] in H.
  - injection H as _ <-. reflexivity.
  - destruct (is_numeric_char c).
    + destruct (getJsonNumber s) as [n r] eqn:E. injection H as _ <-.
      cbn [String.length]. specialize (IH n eq_refl). lia.
    + injection H as _ <-. reflexivity.
Qed.

Lemma take_chars_rest (n : nat) (s t rest : string) :
  take_chars n s = (t, rest) ->
  String.length rest <= String.length s /\
  (0 < n -> s <> EmptyString -> String.length rest < String.length s).
Proof.
  revert s t. induction n as [|n IH]; intros s t H.
  - cbn [take_chars] in H. injection H as _ <-. split; [lia | intros; lia].
  - destruct s as [|c s]; cbn [take_chars] in H.
    + injection H as _ <-. split; [lia | intros _ []; reflexivity].
    + destruct (take_chars n s) as [t' r] eqn:E. injection H as _ <-.
      destruct (IH s t' E) as (H1 & _). cbn [String.length]. split; [lia | intros; lia].
Qed.

Lemma checkJsonEmpty_loop_rest (n : nat) (s acc e rest : string) :
  checkJsonEmpty_loop n s acc = (e, rest) -> String.length rest <= String.length s.
Proof.
  revert s acc. induction n as [|n IH]; intros s acc H.
  - cbn in H. injection H as _ <-. lia.
  - destruct s as [|c s]; cbn [checkJsonEmpty_loop] in H.
    + injection H as _ <-. lia.
    + destruct (c_isspace c); [injection H as _ <-; lia|].
      apply IH in H. cbn [String.length]. lia.
Qed.

Lemma checkJsonEmpty_rest (text : string) (c : ascii) (r : string) (rest : string) :
  c_isspace c = false -> text <> EmptyString ->
  checkJsonEmpty text (String c r) = SOk tt rest -> String.length rest <= String.length r.
Proof.
  intros Hc Ht H. unfold checkJsonEmpty in H.
  destruct text as [|x text]; [contradiction|]. cbn [String.length checkJsonEmpty_loop] in H.
  rewrite Hc in H.
  destruct (checkJsonEmpty_loop (String.length text) r (EmptyString ++ str1 c)) as [e r'] eqn:E.
  destruct (String.eqb e (String x text)); [|discriminate].
  injection H as <-. exact (checkJsonEmpty_loop_rest _ _ _ _ _ E).
Qed.

(** Every token read at a character consumes that character. *)
Lemma scan_token_progress (c : ascii) (r : string) (t : JsonToken) (rest : string) :
  scan_token (String c r) = Some (SOk t rest) -> String.length rest <= String.length r.
Proof.
  unfold scan_token.
  destruct (Ascii.eqb c "{"); [intro H; injection H as _ <-; lia|].
  destruct (Ascii.eqb c "}"); [intro H; injection H as _ <-; lia|].
  destruct (Ascii.eqb c "["); [intro H; injection H as _ <-; lia|].
  destruct (Ascii.eqb c "]"); [intro H; injection H as _ <-; lia|].
  destruct (Ascii.eqb c ","); [intro H; injection H as _ <-; lia|].
  destruct (Ascii.eqb c ":"); [intro H; injection H as _ <-; lia|].
  destruct (Ascii.eqb c ch_dq).
  { cbn [getJsonString]. destruct (getJsonString_loop r EmptyString) as [v r'|m] eqn:E;
      [|discriminate].
    intro H. injection H as _ <-.
    pose proof (getJsonString_loop_rest (S (String.length r)) r _ _ _ ltac:(lia) E). lia. }
  destruct (Ascii.eqb c "-" || is_digit c) eqn:Hn.
  { destruct (getJsonNumber (String c r)) as [v r'] eqn:E. intro H. injection H as _ <-.
    cbn [getJsonNumber] in E.
    assert (Hc : is_numeric_char c = true).
    { unfold is_numeric_char. apply orb_true_iff in Hn as [Hn|Hn].
      - rewrite Hn. rewrite !orb_true_r. reflexivity.
      - rewrite Hn. reflexivity. }
    rewrite Hc in E. destruct (getJsonNumber r) as [n r''] eqn:E'. injection E as _ <-.
    exact (getJsonNumber_rest _ _ _ E'). }
  destruct (Ascii.eqb c "t" || Ascii.eqb c "f") eqn:Hb.
  { unfold getJsonBoolean. destruct (take_chars _ (String c r)) as [b r'] eqn:E.
    destruct (String.eqb b "true" && String.eqb b "false"); [discriminate|].
    intro H. injection H as _ <-.
    destruct (take_chars_rest _ _ _ _ E) as (_ & H3).
    assert (L : String.length r' < String.length (String c r))
      by (apply H3; [destruct (Ascii.eqb (peek (String c r)) "f"); lia | discriminate]).
    cbn [String.length] in L. lia. }
  destruct (Ascii.eqb c "n") eqn:Hnl.
  { destruct (checkJsonEmpty "null" (String c r)) as [[] r'|m] eqn:E; [|discriminate].
    intro H. injection H as _ <-.
    apply Ascii.eqb_eq in Hnl. subst c.
    exact (checkJsonEmpty_rest "null" "n" r r' eq_refl ltac:(discriminate) E). }
  destruct (Ascii.eqb c "u") eqn:Hu.
  { destruct (checkJsonEmpty "undefined" (String c r)) as [[] r'|m] eqn:E; [|discriminate].
    intro H. injection H as _ <-.
    apply Ascii.eqb_eq in Hu. subst c.
    exact (checkJsonEmpty_rest "undefined" "u" r r' eq_refl ltac:(discriminate) E). }
  destruct (Ascii.eqb c ch_nul); discriminate.
Qed.

Lemma eatWhitespace_length (s : string) : String.length (eatWhitespace s) <= String.length s.
Proof.
  induction s as [|c s IH]; cbn [eatWhitespace]; [reflexivity|].
  destruct (isWhiteSpace c); cbn [String.length]; lia.
Qed.

(** One round of the [scan] loop shortens the unread text. *)
Lemma scan_round_progress (s : string) (t : JsonToken) (rest : string) :
  s <> EmptyString -> scan_token (eatWhitespace s) = Some (SOk t rest) ->
  String.length rest < String.length s.
Proof.
  intros Hne H. pose proof (eatWhitespace_length s) as Hw.
  destruct (eatWhitespace s) as [|c r] eqn:E.
  - cbn in H. injection H as _ <-. destruct s; [contradiction | cbn; lia].
  - apply scan_token_progress in H. cbn [String.length] in Hw. lia.
Qed.

(** [scan] gives its loop enough fuel: any fuel above the length of the
    text gives the same outcome. *)
Lemma scan_loop_fuel_aux (L : nat) : forall s n m acc,
  String.length s < L -> String.length s < n -> String.length s < m ->
  scan_loop n s acc = scan_loop m s acc.
Proof.
  induction L as [|L IH]; intros s n m acc HL Hn Hm; [lia|].
  destruct s as [|c r]; [rewrite !scan_loop_empty; reflexivity|].
  destruct n as [|n]; [lia|]. destruct m as [|m]; [lia|].
  cbn [scan_loop].
  destruct (scan_token (eatWhitespace (String c r))) as [[t rest|msg]|] eqn:E; try reflexivity.
  pose proof (scan_round_progress (String c r) t rest ltac:(discriminate) E).
  apply IH; lia.
Qed.

Lemma scan_loop_fuel (s : string) (n m : nat) (acc : list JsonToken) :
  String.length s < n -> String.length s < m -> scan_loop n s acc = scan_loop m s acc.
Proof. apply (scan_loop_fuel_aux (S (String.length s))). lia. Qed.

Lemma scan_loop_acc (n : nat) (s : string) (pre acc : list JsonToken) :
  scan_loop n s (app pre acc) =
  match scan_loop n s acc with ScanOk ts => ScanOk (app pre ts) | r => r end.
Proof.
  revert s acc. induction n as [|n IH]; intros s acc.
  - destruct s; reflexivity.
  - destruct s as [|c r]; [reflexivity|]. cbn [scan_loop].
    destruct (scan_token (eatWhitespace (String c r))) as [[t rest|m]|]; try reflexivity.
    rewrite <- app_assoc. apply IH.
Qed.

Lemma eatWhitespace_empty_all_white (s : string) :
  eatWhitespace s = EmptyString -> all_white s = true.
Proof.
  induction s as [|c s IH]; cbn [eatWhitespace all_white]; [reflexivity|].
  destruct (isWhiteSpace c); [exact IH | discriminate].
Qed.

(** ** The reader around the value: leading and trailing text *)







(** ** The reader on malformed and exponent number texts *)

Lemma read_sign_digits (neg : bool) (s r : string) :
  all_digits s = true -> s <> EmptyString ->
  read_sign (Z_sign_text neg ++ s ++ r) = (neg, s ++ r).
Proof.
  intros Hd Hne. destruct s as [|c s]; [contradiction|].
  apply read_sign_signed. cbn in Hd |- *. apply andb_prop in Hd as [Hc _]. exact Hc.
Qed.

Lemma signed_text_numeric (neg : bool) (s r : string) :
  all_digits s = true -> all_numeric r = true ->
  all_numeric (Z_sign_text neg ++ s ++ r) = true.
Proof.
  intros Hd Hr. rewrite !all_numeric_app, (all_digits_numeric s Hd), Hr.
  destruct neg; reflexivity.
Qed.

Lemma signed_text_start (neg : bool) (s r : string) :
  all_digits s = true -> s <> EmptyString -> num_start (Z_sign_text neg ++ s ++ r) = true.
Proof.
  intros Hd Hne. destruct neg; [reflexivity|].
  destruct s as [|c s]; [contradiction|]. cbn in Hd |- *.
  apply andb_prop in Hd as [Hc _]. rewrite Hc, orb_true_r. reflexivity.
Qed.





(** X25: an [e] or [E] after the digits of a number with no exponent
    digits after it (nothing, or only a sign) leaves [strtod] part of the
    text unread: the number reads as [0], tagged [VInt]. *)
Lemma X25_dangling_exponent (neg : bool) (s1 : string) (ec : ascii) (t : string) (v : JsonValue) :
  all_digits s1 = true -> s1 <> EmptyString ->
  (Ascii.eqb ec "e" || Ascii.eqb ec "E") = true ->
  t = EmptyString \/ t = "+" \/ t = "-" ->
  read (Z_sign_text neg ++ s1 ++ String ec t) v = ReadOk (setNumber dbl_zero (setType VInt v)).
Proof.
  intros Hd1 Hne1 He Ht.
  assert (Hcr : all_numeric (String ec t) = true).
  { cbn [all_numeric]. unfold is_numeric_char.
    apply orb_true_iff in He as [E|E]; apply Ascii.eqb_eq in E; subst ec;
      destruct Ht as [ -> | [ -> | -> ]]; reflexivity. }
  rewrite read_number_text
    by first [exact (signed_text_numeric neg s1 _ Hd1 Hcr) | exact (signed_text_start neg s1 _ Hd1 Hne1)].
  unfold parseNumber. cbn [getValue]. unfold parse_double_text.
  rewrite (read_sign_digits neg s1 _ Hd1 Hne1).
  assert (Hcd : is_digit ec = false)
    by (apply orb_true_iff in He as [E|E]; apply Ascii.eqb_eq in E; subst ec; reflexivity).
  rewrite (span_digits_app s1 (String ec t) Hd1 Hcd).
  assert (Hdot : Ascii.eqb ec "." = false)
    by (apply orb_true_iff in He as [E|E]; apply Ascii.eqb_eq in E; subst ec; reflexivity).
  rewrite Hdot. destruct s1 as [|c0 s1']; [contradiction|].
  cbn iota beta. rewrite He.
  destruct Ht as [ -> | [ -> | -> ]]; reflexivity.
Qed.

Lemma X25_witness :
  all_digits "15" = true /\ "15" <> EmptyString /\ (Ascii.eqb "e" "e" || Ascii.eqb "e" "E") = true /\
  ("+" = EmptyString \/ "+" = "+" \/ "+" = "-") /\
  read (Z_sign_text false ++ "15" ++ String "e" "+") JsonValue_default =
  ReadOk (setNumber dbl_zero (setType VInt JsonValue_default)).
Proof.
  split; [reflexivity | split; [discriminate | split; [reflexivity | split; [right; left; reflexivity|]]]].
  apply X25_dangling_exponent; [reflexivity | discriminate | reflexivity | right; left; reflexivity].
Defined.

(** X26: an optional minus sign followed by decimal digits whose value is
    [2^1024] or more (beyond the largest [double]) reads as [DBL_MAX] with
    the sign, tagged [VInt]. *)
Lemma X26_integer_overflow (neg : bool) (s : string) (v : JsonValue) :
  all_digits s = true -> (2 ^ 1024 <= digits_value s)%N ->
  read (Z_sign_text neg ++ s) v = ReadOk (setNumber (mkDbl (sgn neg dbl_max) 0) (setType VInt v)).
Proof.
  intros Hd Hb.
  assert (Hne : s <> EmptyString) by (intros ->; cbn in Hb; lia).
  rewrite read_number_text
    by first [apply signed_digits_numeric; exact Hd | apply num_start_signed; assumption].
  unfold parseNumber. cbn [getValue]. rewrite parse_double_text_integer by assumption.
  assert (Hz : (2 ^ 1024 <= Z.of_N (digits_value s))%Z).
  { apply N2Z.inj_le in Hb. rewrite N2Z.inj_pow in Hb. exact Hb. }
  rewrite to_double_big_int
    by (destruct neg; cbn [sgn]; [rewrite Z.abs_opp|]; rewrite Z.abs_eq; lia).
  replace ((if (sgn neg (Z.of_N (digits_value s)) <? 0)%Z then (-1)%Z else 1%Z) * dbl_max)%Z
    with (sgn neg dbl_max)
    by (destruct neg; cbn [sgn]; [rewrite (proj2 (Z.ltb_lt _ 0)) by lia; ring
                                  | rewrite (proj2 (Z.ltb_ge _ 0)) by lia; ring]).
  reflexivity.
Qed.

Lemma X26_witness :
  all_digits ("179769313486231590772930519078902473361797697894230657273430081157732675805500963132708477322407536021120113879871393357658789768814416622492847430639474124377767893424865485276302219601246094119453082952085005768838150682342462881473913110540827237163350510684586298239947245938479716304835356329624224137217") = true /\ (2 ^ 1024 <= digits_value ("179769313486231590772930519078902473361797697894230657273430081157732675805500963132708477322407536021120113879871393357658789768814416622492847430639474124377767893424865485276302219601246094119453082952085005768838150682342462881473913110540827237163350510684586298239947245938479716304835356329624224137217"))%N /\
  read (Z_sign_text true ++ ("179769313486231590772930519078902473361797697894230657273430081157732675805500963132708477322407536021120113879871393357658789768814416622492847430639474124377767893424865485276302219601246094119453082952085005768838150682342462881473913110540827237163350510684586298239947245938479716304835356329624224137217")) JsonValue_default =
  ReadOk (setNumber (mkDbl (sgn true dbl_max) 0) (setType VInt JsonValue_default)).
Proof.
  split; [vm_compute; reflexivity | split; [vm_compute; discriminate|]].
  apply X26_integer_overflow; [vm_compute; reflexivity | vm_compute; discriminate].
Defined.

(** ** The reader on [null], [undefined] and unclosed arrays *)

Lemma read_first_token (c : ascii) (r rest : string) (t : JsonToken) (v : JsonValue) :
  isWhiteSpace c = false ->
  scan_token (String c r) = Some (SOk t rest) ->
  String.length rest <= String.length r ->
  read (String c r) v =
  match scan rest with
  | ScanOk ts =>
      match parse_value (2 * List.length (t :: ts) + 2) v (t :: ts) with
      | POk w _ => ReadOk w
      | PThrow m w => ReadThrow m w
      end
  | ScanThrow m => ReadThrow m v
  | ScanLoops => ReadLoops
  end.
Proof.
  intros Hw Ht Hl. unfold read, scan. cbn [String.length].
  rewrite (scan_loop_token _ _ _ _ _ _ Hw Ht).
  pose proof (scan_loop_acc (S (String.length r)) rest [t] []) as E.
  cbn [app] in E |- *. rewrite E.
  rewrite (scan_loop_fuel rest (S (String.length r)) (S (String.length rest))) by lia.
  destruct (scan_loop (S (String.length rest)) rest []); reflexivity.
Qed.

(** X23: the words [null] and [undefined] read as [VEmpty] (the caller's
    value retagged, its payload kept), whatever follows them, unless
    [scan] fails on what follows. *)
Lemma X23_null_undefined (r : string) (v : JsonValue) :
  read ("null" ++ r) v =
    match scan r with
    | ScanOk _ => ReadOk (setType VEmpty v)
    | ScanThrow m => ReadThrow m v
    | ScanLoops => ReadLoops
    end /\
  read ("undefined" ++ r) v =
    match scan r with
    | ScanOk _ => ReadOk (setType VEmpty v)
    | ScanThrow m => ReadThrow m v
    | ScanLoops => ReadLoops
    end.
Proof.
  split.
  - change ("null" ++ r) with (String "n" ("ull" ++ r)).
    rewrite (read_first_token "n" ("ull" ++ r) r (mkJsonToken JsonTokenEmpty EmptyString) v
               eq_refl eq_refl)
      by (rewrite string_length_app; lia).
    destruct (scan r); reflexivity.
  - change ("undefined" ++ r) with (String "u" ("ndefined" ++ r)).
    rewrite (read_first_token "u" ("ndefined" ++ r) r (mkJsonToken JsonTokenEmpty EmptyString) v
               eq_refl eq_refl)
      by (rewrite string_length_app; lia).
    destruct (scan r); reflexivity.
Qed.


